(** * Traversal id mappers of [pyramid_web20.system.crud.mapper]

    A shallow embedding of [Mapper], [IdMapper] and [Base64UUIDMapper]
    together with the part of Python's object model the module relies on:
    class namespaces, the method resolution order, instance dictionaries,
    the binding of plain functions found on a class, [staticmethod], the
    builtins [str], [int], [getattr] and [str.isdigit].

    A Python [str] is a sequence of code points; the model covers the
    strings whose code points are below U+0100, one character of a
    [string] being one code point, and [str.isdigit] and [int] follow the
    Unicode character database on that range.  Theorems that the code
    satisfies on ASCII strings only say so in a hypothesis.
    Python [int] values are unbounded and modelled by [Z].  [int] follows
    the grammar of Python 3.6 and later (single underscores between
    digits); the interpreter's configurable limit on the number of digits
    of a conversion is not modelled. *)

From Stdlib Require Import ZArith NArith Lia Ascii String.
From stdpp Require Import base strings gmap.

Local Open Scope string_scope.

(** ** Values, exceptions, results *)

(** The exception classes that the modelled code can raise. *)
Inductive exn : Type :=
  | TypeError
  | ValueError
  | AttributeError
  | NotImplementedError.

(** Outcome of evaluating a Python expression. *)
Inductive result (A : Type) : Type :=
  | Ok (a : A)
  | Raise (e : exn).
Arguments Ok {A} a.
Arguments Raise {A} e.

(** Data held by domain objects and passed through the transforms.  A
    [uuid.UUID] is its 128-bit integer ([UUID.int]). *)
Inductive value : Type :=
  | VNone
  | VBool (b : bool)
  | VInt (z : Z)
  | VStr (s : string)
  | VUUID (u : N).

(** ** Characters and the builtins on strings *)

Definition code (c : ascii) : N := N_of_ascii c.

(** ['0' <= c <= '9']. *)
Definition is_digit (c : ascii) : bool :=
  (48 <=? code c)%N && (code c <=? 57)%N.

Definition digit_val (c : ascii) : N := (code c - 48)%N.

Definition digit_char (d : N) : ascii := ascii_of_N (48 + d).

(** The white space that [int] skips around the literal: space, TAB, LF,
    VT, FF, CR and, beyond ASCII, NEL (U+0085) and the no-break space
    (U+00A0). *)
Definition is_space (c : ascii) : bool :=
  (code c =? 32)%N || ((9 <=? code c)%N && (code c <=? 13)%N)
  || (code c =? 133)%N || (code c =? 160)%N.

Definition is_underscore (c : ascii) : bool := (code c =? 95)%N.

Fixpoint all_chars (p : ascii -> bool) (s : string) : bool :=
  match s with
  | EmptyString => true
  | String c r => p c && all_chars p r
  end.

(** The characters below U+0100 that the Unicode database classes as
    digits: the decimal digits and the superscripts two (U+00B2), three
    (U+00B3) and one (U+00B9).  Only the former are decimal digits, which
    is what [int] reads. *)
Definition is_unicode_digit (c : ascii) : bool :=
  is_digit c || (code c =? 178)%N || (code c =? 179)%N || (code c =? 185)%N.

(** [str.isdigit]: every character is a digit and there is at least one. *)
Definition isdigit (s : string) : bool :=
  match s with
  | EmptyString => false
  | String _ _ => all_chars is_unicode_digit s
  end.

(** *** [str(n)] for an integer *)

(** Decimal digits of [n], most significant first, pushed in front of
    [tail]; [fuel] bounds the number of digits. *)
Fixpoint digits_onto (fuel : nat) (n : N) (tail : string) : string :=
  let tail' := String (digit_char (n mod 10)) tail in
  match fuel with
  | O => tail'
  | S fuel' => if (n <? 10)%N then tail' else digits_onto fuel' (n / 10) tail'
  end.

Definition str_of_N (n : N) : string := digits_onto (N.size_nat n) n "".

Definition str_of_Z (z : Z) : string :=
  match z with
  | Zneg p => String "-" (str_of_N (Npos p))
  | _ => str_of_N (Z.to_N z)
  end.

(** *** [int(s)] for a string, base 10 *)

Fixpoint lstrip (s : string) : string :=
  match s with
  | String c r => if is_space c then lstrip r else s
  | EmptyString => EmptyString
  end.

(** What the digit scanner saw last. *)
Inductive scan_state : Type := AtStart | AfterDigit | AfterUnderscore.

(** The digit loop of the integer parser: digits, with single underscores
    allowed between two digits.  It stops at the first other character and
    returns the number read and the unread rest, or [None] when there is no
    digit, a leading, doubled or trailing underscore. *)
Fixpoint scan_digits (s : string) (acc : N) (st : scan_state) : option (N * string) :=
  match s with
  | String c r =>
      if is_digit c then scan_digits r (10 * acc + digit_val c)%N AfterDigit
      else if is_underscore c then
        match st with
        | AfterDigit => scan_digits r acc AfterUnderscore
        | _ => None
        end
      else
        match st with
        | AfterDigit => Some (acc, s)
        | _ => None
        end
  | EmptyString =>
      match st with
      | AfterDigit => Some (acc, s)
      | _ => None
      end
  end.

(** Optional sign; no white space may follow it. *)
Definition take_sign (s : string) : bool * string :=
  match s with
  | String c r =>
      if (code c =? 45)%N then (true, r)
      else if (code c =? 43)%N then (false, r)
      else (false, s)
  | EmptyString => (false, s)
  end.

Definition int_of_str (s : string) : result Z :=
  let (neg, body) := take_sign (lstrip s) in
  match scan_digits body 0 AtStart with
  | Some (n, rest) =>
      match lstrip rest with
      | EmptyString => Ok (if neg then (- Z.of_N n)%Z else Z.of_N n)
      | String _ _ => Raise ValueError
      end
  | None => Raise ValueError
  end.

(** *** [str(u)] for a [uuid.UUID] *)

Definition hex_char (d : N) : ascii :=
  ascii_of_N (if (d <? 10)%N then 48 + d else 87 + d).

(** The [k] low hexadecimal digits of [n], most significant first. *)
Fixpoint hex_onto (k : nat) (n : N) (tail : string) : string :=
  match k with
  | O => tail
  | S k' => hex_onto k' (n / 16) (String (hex_char (n mod 16)) tail)
  end.

(** The canonical 8-4-4-4-12 form. *)
Definition str_of_uuid (u : N) : string :=
  hex_onto 8 (u / 2 ^ 96)
    (String "-" (hex_onto 4 (u / 2 ^ 80)
      (String "-" (hex_onto 4 (u / 2 ^ 64)
        (String "-" (hex_onto 4 (u / 2 ^ 48)
          (String "-" (hex_onto 12 u ""))))))))%N.

(** *** The builtins [str] and [int] on one argument *)

Definition py_str (v : value) : string :=
  match v with
  | VNone => "None"
  | VBool true => "True"
  | VBool false => "False"
  | VInt z => str_of_Z z
  | VStr s => s
  | VUUID u => str_of_uuid u
  end.

Definition py_int (v : value) : result value :=
  match v with
  | VNone => Raise TypeError
  | VBool b => Ok (VInt (if b then 1 else 0))
  | VInt z => Ok (VInt z)
  | VStr s =>
      match int_of_str s with
      | Ok z => Ok (VInt z)
      | Raise e => Raise e
      end
  | VUUID u => Ok (VInt (Z.of_N u))
  end.

(** ** [pyramid_web20.utils.slug] *)

(** The URL-safe base64 alphabet: [A-Z a-z 0-9 - _]. *)
Definition b64_char (d : N) : ascii :=
  ascii_of_N
    (if (d <? 26)%N then 65 + d
     else if (d <? 52)%N then 71 + d
     else if (d <? 62)%N then d - 4
     else if (d =? 62)%N then 45
     else 95).

Definition b64_val (c : ascii) : option N :=
  let n := code c in
  if (65 <=? n)%N && (n <=? 90)%N then Some (n - 65)%N
  else if (97 <=? n)%N && (n <=? 122)%N then Some (n - 71)%N
  else if (48 <=? n)%N && (n <=? 57)%N then Some (n + 4)%N
  else if (n =? 45)%N then Some 62%N
  else if (n =? 95)%N then Some 63%N
  else None.

(** The [k] low base-64 digits of [n], most significant first. *)
Fixpoint sextets_onto (k : nat) (n : N) (tail : string) : string :=
  match k with
  | O => tail
  | S k' => sextets_onto k' (n / 64) (String (b64_char (n mod 64)) tail)
  end.

Fixpoint read_sextets (s : string) (acc : N) : option N :=
  match s with
  | EmptyString => Some acc
  | String c r =>
      match b64_val c with
      | Some d => read_sextets r (64 * acc + d)%N
      | None => None
      end
  end.

(** Modelled from the spec: the module [pyramid_web20/utils/slug.py] is not
    among the sources.  The spec calls its two functions the base64-slug
    transforms of the opaque-token variant: a slug is a compact, URL-safe
    string encoding of a UUID.  The 16 bytes of the UUID are written as 22
    characters of the URL-safe base64 alphabet, without padding. *)
Definition slug_of_uuid (u : N) : string := sextets_onto 22 (u * 16) "".

(** Modelled from the spec: parsing a slug back fails (raises) on malformed
    input, and decoding the slug produced from a UUID reproduces it. *)
Definition uuid_of_slug (s : string) : result N :=
  if (String.length s =? 22)%nat then
    match read_sextets s 0 with
    | Some n => Ok (n / 16)%N
    | None => Raise ValueError
    end
  else Raise ValueError.

(** ** Functions, calls and descriptors *)

(** An actual argument of a function of the module: the mapper instance
    itself (what a bound method passes first) or a datum. *)
Inductive arg : Type :=
  | ArgSelf
  | ArgVal (v : value).

(** The function objects that the class bodies of the module refer to: the
    two lambdas written there, and the two module-level functions of
    [slug], taken to be ordinary [def] functions.  Each of them takes
    exactly one positional parameter. *)
Inductive pyfun : Type :=
  | FnIsdigit           (* lambda value: value.isdigit() *)
  | FnTrue              (* lambda x: True *)
  | FnUuidToSlug        (* slug.uuid_to_slug *)
  | FnSlugToUuid.       (* slug.slug_to_uuid *)

(** [lambda value: value.isdigit()]: only [str] has the method. *)
Definition lambda_isdigit (a : arg) : result value :=
  match a with
  | ArgVal (VStr s) => Ok (VBool (isdigit s))
  | _ => Raise AttributeError
  end.

(** [lambda x: True]. *)
Definition lambda_true (a : arg) : result value := Ok (VBool true).

(** Modelled from the spec: [slug.uuid_to_slug], absent from the sources;
    it serializes a UUID into its slug and rejects anything else. *)
Definition uuid_to_slug (a : arg) : result value :=
  match a with
  | ArgVal (VUUID u) => Ok (VStr (slug_of_uuid u))
  | _ => Raise TypeError
  end.

(** Modelled from the spec: [slug.slug_to_uuid], absent from the sources;
    it parses a slug into a UUID and raises on malformed input. *)
Definition slug_to_uuid (a : arg) : result value :=
  match a with
  | ArgVal (VStr s) =>
      match uuid_of_slug s with
      | Ok u => Ok (VUUID u)
      | Raise e => Raise e
      end
  | _ => Raise TypeError
  end.

Definition fun_body (f : pyfun) : arg -> result value :=
  match f with
  | FnIsdigit => lambda_isdigit
  | FnTrue => lambda_true
  | FnUuidToSlug => uuid_to_slug
  | FnSlugToUuid => slug_to_uuid
  end.

(** Calling a one-parameter function: any other number of positional
    arguments is a [TypeError], raised before the body runs. *)
Definition call_function (f : pyfun) (args : list arg) : result value :=
  match args with
  | [a] => fun_body f a
  | _ => Raise TypeError
  end.

Inductive builtin_type : Type := TStr | TInt.

(** Objects that a configuration slot of a mapper can hold. *)
Inductive pyobj : Type :=
  | Data (v : value)
  | Builtin (t : builtin_type)               (* the types [str] and [int] *)
  | Function (f : pyfun)                     (* a function of the module *)
  | Callable (g : value -> result value).    (* a callable of the application *)

(** Truth value of an object, as tested by [if x:]. *)
Definition truthy (o : pyobj) : bool :=
  match o with
  | Data VNone => false
  | Data (VBool b) => b
  | Data (VInt z) => negb (z =? 0)%Z
  | Data (VStr s) => negb (String.eqb s "")
  | Data (VUUID _) => true
  | Builtin _ | Function _ | Callable _ => true
  end.

(** [o(v)]. *)
Definition call (o : pyobj) (v : value) : result value :=
  match o with
  | Data _ => Raise TypeError
  | Builtin TStr => Ok (VStr (py_str v))
  | Builtin TInt => py_int v
  | Function f => call_function f [ArgVal v]
  | Callable g => g v
  end.

(** An entry of a class namespace: a plain object, or one wrapped in
    [staticmethod]. *)
Inductive class_attr : Type :=
  | Attr (o : pyobj)
  | StaticMethod (o : pyobj).

(** What an attribute access on an instance evaluates to: an object, or a
    method bound to the instance. *)
Inductive bound : Type :=
  | Plain (o : pyobj)
  | Method (f : pyfun).

(** The descriptor protocol for an attribute found on the class: a function
    becomes a bound method, [staticmethod] hands out what it wraps, types
    and data are returned as they are. *)
Definition descr_get (a : class_attr) : bound :=
  match a with
  | StaticMethod o => Plain o
  | Attr (Function f) => Method f
  | Attr o => Plain o
  end.

(** [b(v)]: a bound method passes the instance first. *)
Definition call_bound (b : bound) (v : value) : result value :=
  match b with
  | Plain o => call o v
  | Method f => call_function f [ArgSelf; ArgVal v]
  end.

(** ** Classes and instances *)

Inductive class : Type := Mapper | IdMapper | Base64UUIDMapper.

(** The data attributes of each class body.  (The methods are the
    definitions further down, dispatched on the class.) *)
Definition namespace (c : class) : gmap string class_attr :=
  match c with
  | Mapper => ∅
  | IdMapper =>
      <["mapping_attribute" := Attr (Data (VStr "id"))]>
      (<["transform_to_path" := Attr (Builtin TStr)]>
      (<["transform_to_id" := Attr (Builtin TInt)]>
      (<["is_id" := StaticMethod (Function FnIsdigit)]> ∅)))
  | Base64UUIDMapper =>
      <["mapping_attribute" := Attr (Data (VStr "uuid"))]>
      (<["transform_to_id" := Attr (Function FnUuidToSlug)]>
      (<["transform_to_path" := Attr (Function FnSlugToUuid)]>
      (<["is_id" := Attr (Function FnTrue)]> ∅)))
  end.

(** Method resolution order. *)
Definition mro (c : class) : list class :=
  match c with
  | Mapper => [Mapper]
  | IdMapper => [IdMapper; Mapper]
  | Base64UUIDMapper => [Base64UUIDMapper; IdMapper; Mapper]
  end.

Fixpoint lookup_mro (cs : list class) (name : string) : option class_attr :=
  match cs with
  | [] => None
  | c :: cs' =>
      match namespace c !! name with
      | Some a => Some a
      | None => lookup_mro cs' name
      end
  end.

Definition class_lookup (c : class) (name : string) : option class_attr :=
  lookup_mro (mro c) name.

(** A mapper object: its class and its instance dictionary. *)
Record instance : Type := MkInstance {
  inst_class : class;
  inst_dict : gmap string pyobj
}.

(** [self.name]: the instance dictionary first, then the classes of the
    MRO through the descriptor protocol. *)
Definition instance_getattr (m : instance) (name : string) : result bound :=
  match inst_dict m !! name with
  | Some o => Ok (Plain o)
  | None =>
      match class_lookup (inst_class m) name with
      | Some a => Ok (descr_get a)
      | None => Raise AttributeError
      end
  end.

(** A domain object, as the mapper sees it: its attributes. *)
Abbreviation domobj := (gmap string value).

(** [getattr(obj, name)]. *)
Definition py_getattr (obj : domobj) (name : bound) : result value :=
  match name with
  | Plain (Data (VStr s)) =>
      match obj !! s with
      | Some v => Ok v
      | None => Raise AttributeError
      end
  | _ => Raise TypeError
  end.

(** ** Method bodies: computations over the receiver *)

(** A method body reads and writes the attributes of [self]; an exception
    leaves the receiver as it is at that point. *)
Definition M (A : Type) : Type := instance -> result A * instance.

Definition ret {A} (a : A) : M A := fun m => (Ok a, m).

Definition raise {A} (e : exn) : M A := fun m => (Raise e, m).

Definition bind {A B} (c : M A) (k : A -> M B) : M B :=
  fun m =>
    match c m with
    | (Ok a, m') => k a m'
    | (Raise e, m') => (Raise e, m')
    end.

Notation "'let*' x ':=' c 'in' k" := (bind c (fun x => k))
  (at level 10, x name, c at level 100, k at level 200).

Definition lift {A} (r : result A) : M A := fun m => (r, m).

(** [self.name] *)
Definition load_attr (name : string) : M bound :=
  fun m => (instance_getattr m name, m).

(** [self.name = o] *)
Definition store_attr (name : string) (o : pyobj) : M unit :=
  fun m => (Ok tt, MkInstance (inst_class m) (<[name := o]> (inst_dict m))).

(** [if o: self.name = o] *)
Definition store_if_truthy (name : string) (o : pyobj) : M unit :=
  if truthy o then store_attr name o else ret tt.

(** [IdMapper.__init__]. *)
Definition IdMapper_init
    (mapping_attribute transform_to_path transform_to_id is_id : pyobj) : M unit :=
  let* _ := store_if_truthy "mapping_attribute" mapping_attribute in
  let* _ := store_if_truthy "transform_to_path" transform_to_path in
  let* _ := store_if_truthy "transform_to_id" transform_to_id in
  store_if_truthy "is_id" is_id.

(** [IdMapper.get_path_from_object]: the callee [self.transform_to_path] is
    evaluated before its argument. *)
Definition IdMapper_get_path_from_object (obj : domobj) : M value :=
  let* f := load_attr "transform_to_path" in
  let* name := load_attr "mapping_attribute" in
  let* v := lift (py_getattr obj name) in
  lift (call_bound f v).

(** [IdMapper.get_id_from_path]. *)
Definition IdMapper_get_id_from_path (path : value) : M value :=
  let* f := load_attr "transform_to_id" in
  lift (call_bound f path).

(** [Mapper.get_path_from_object] and [Mapper.get_id_from_path]. *)
Definition Mapper_get_path_from_object (obj : domobj) : M value :=
  raise NotImplementedError.

Definition Mapper_get_id_from_path (path : value) : M value :=
  raise NotImplementedError.

(** [self.get_path_from_object(obj)], resolved along the MRO. *)
Definition get_path_from_object (obj : domobj) : M value :=
  fun m =>
    match inst_class m with
    | Mapper => Mapper_get_path_from_object obj m
    | IdMapper | Base64UUIDMapper => IdMapper_get_path_from_object obj m
    end.

(** [self.get_id_from_path(path)], resolved along the MRO. *)
Definition get_id_from_path (path : value) : M value :=
  fun m =>
    match inst_class m with
    | Mapper => Mapper_get_id_from_path path m
    | IdMapper | Base64UUIDMapper => IdMapper_get_id_from_path path m
    end.

(** [self.is_id(x)]: an attribute access followed by a call. *)
Definition is_id (x : value) : M value :=
  let* f := load_attr "is_id" in
  lift (call_bound f x).

(** A parameter of the constructor that was not passed takes its default,
    [None]. *)
Definition or_none (a : option pyobj) : pyobj := default (Data VNone) a.

(** [cls(mapping_attribute=.., transform_to_path=.., transform_to_id=..,
    is_id=..)]: a fresh instance with an empty dictionary, initialised by
    the [__init__] found along the MRO.  [Mapper] inherits the initialiser
    of [object], which takes no argument. *)
Definition new (c : class)
    (mapping_attribute transform_to_path transform_to_id is_id : option pyobj)
    : result instance :=
  let fresh := MkInstance c ∅ in
  match c with
  | Mapper =>
      match mapping_attribute, transform_to_path, transform_to_id, is_id with
      | None, None, None, None => Ok fresh
      | _, _, _, _ => Raise TypeError
      end
  | IdMapper | Base64UUIDMapper =>
      match IdMapper_init (or_none mapping_attribute) (or_none transform_to_path)
                          (or_none transform_to_id) (or_none is_id) fresh with
      | (Ok _, m) => Ok m
      | (Raise e, _) => Raise e
      end
  end.

(** The result and the receiver after running a method on [m]. *)
Definition result_of {A} (c : M A) (m : instance) : result A := fst (c m).
Definition after {A} (c : M A) (m : instance) : instance := snd (c m).

(** The four configuration slots of a mapper. *)
Inductive slot : Type := MappingAttribute | TransformToPath | TransformToId | IsId.

Definition slot_name (s : slot) : string :=
  match s with
  | MappingAttribute => "mapping_attribute"
  | TransformToPath => "transform_to_path"
  | TransformToId => "transform_to_id"
  | IsId => "is_id"
  end.

(** The constructor argument that goes to a slot. *)
Definition passed (s : slot)
    (mapping_attribute transform_to_path transform_to_id is_id : option pyobj)
    : option pyobj :=
  match s with
  | MappingAttribute => mapping_attribute
  | TransformToPath => transform_to_path
  | TransformToId => transform_to_id
  | IsId => is_id
  end.

(** The two variants that can be configured. *)
Definition is_variant (c : class) : bool :=
  match c with
  | Mapper => false
  | IdMapper | Base64UUIDMapper => true
  end.

(** The operations that callers invoke on a mapper. *)
Inductive operation : Type :=
  | GetPathFromObject (obj : domobj)
  | GetIdFromPath (path : value)
  | IsIdOf (x : value).

Definition run (o : operation) : M value :=
  match o with
  | GetPathFromObject obj => get_path_from_object obj
  | GetIdFromPath path => get_id_from_path path
  | IsIdOf x => is_id x
  end.

(** ** [websauna.system.user.usermixin] *)

(** [UserMixin.GROUP_ADMIN]. *)
Definition GROUP_ADMIN : string := "admin".

(** Truth value of a datum. *)
Definition value_truthy (v : value) : bool := truthy (Data v).

(** A row of the group table: its name and the users on the [users] side
    of the many-to-many relationship, by object identity. *)
Record group : Type := MkGroup {
  group_name : string;
  group_users : list nat
}.

(** What the methods of [UserMixin] read off [self].  [user_key] is the
    identity of the object; [user_id] the integer primary key, [None]
    until the row is flushed; [user_username] the nullable string column;
    [user_full_name] the JSON value behind the [full_name] property;
    [user_email] and [user_is_activated] come from the class that the
    mixin is combined with. *)
Record user : Type := MkUser {
  user_key : nat;
  user_id : option Z;
  user_email : value;
  user_username : option string;
  user_full_name : value;
  user_enabled : value;
  user_is_activated : value
}.

(** A function of the module returns, or an [assert] of it fails. *)
Inductive checked (A : Type) : Type :=
  | Returned (a : A)
  | AssertionError.
Arguments Returned {A} a.
Arguments AssertionError {A}.

(** [UserMixin.friendly_name]. *)
Definition friendly_name (u : user) : value :=
  let full_name := user_full_name u in
  if value_truthy full_name then full_name
  else
    match user_username u with
    | Some name =>
        if negb (String.eqb name "") then
          if String.prefix "user-" name then user_email u else VStr name
        else user_email u
    | None => user_email u
    end.

(** [UserMixin.generate_username]: [assert self.id], then
    ["user-{}".format(self.id)]. *)
Definition generate_username (u : user) : checked string :=
  match user_id u with
  | Some z =>
      if negb (z =? 0)%Z then Returned (String.append "user-" (str_of_Z z))
      else AssertionError
  | None => AssertionError
  end.


(** [UserMixin.is_in_group], over the collection [self.groups]. *)
Fixpoint is_in_group (groups : list group) (name : string) : bool :=
  match groups with
  | [] => false
  | g :: rest =>
      if String.eqb (group_name g) name then true else is_in_group rest name
  end.

(** [UserMixin.is_admin]. *)
Definition is_admin (groups : list group) : bool :=
  is_in_group groups GROUP_ADMIN.

(** The database session, as far as the module uses it: the rows of the
    group table, pending ones included. *)
Record dbsession : Type := MkSession {
  session_groups : list group
}.

(** [user.groups]: the other side of [group.users]. *)
Definition user_groups (db : dbsession) (u : user) : list group :=
  filter (fun g => user_key u ∈ group_users g) (session_groups db).

(** [init_empty_site]: [dbsession.query(Group).count() > 0] returns early;
    otherwise the admin group is created, added to the session and given
    the user as its member. *)
Definition init_empty_site (db : dbsession) (u : user) : dbsession :=
  if (0 <? length (session_groups db))%nat then db
  else MkSession (session_groups db ++ [MkGroup GROUP_ADMIN [user_key u]]).

(** [check_empty_site_init]. *)
Definition check_empty_site_init (db : dbsession) (u : user) : checked dbsession :=
  match user_id u with
  | Some z =>
      if negb (z =? 0)%Z then
        if (0 <? length (session_groups db))%nat then Returned db
        else Returned (init_empty_site db u)
      else AssertionError
  | None => AssertionError
  end.

(** The sessions that sign-ups lead to from an empty site: each step is a
    call of [check_empty_site_init] that returned. *)
Inductive reachable : dbsession -> Prop :=
  | reachable_empty : reachable (MkSession [])
  | reachable_signup db u db' :
      reachable db ->
      check_empty_site_init db u = Returned db' ->
      reachable db'.

(** * Properties *)

(** ** The builtins on sample inputs *)

Example str_of_Z_examples :
  str_of_Z 0 = "0" /\ str_of_Z 1203 = "1203" /\ str_of_Z (-45) = "-45".
Proof. repeat split; reflexivity. Qed.

Example int_of_str_examples :
  int_of_str "123" = Ok 123%Z /\ int_of_str "  -7 " = Ok (-7)%Z /\
  int_of_str "1_000" = Ok 1000%Z /\ int_of_str "007" = Ok 7%Z /\
  int_of_str "" = Raise ValueError /\ int_of_str "- 7" = Raise ValueError /\
  int_of_str "1__0" = Raise ValueError /\ int_of_str "12a" = Raise ValueError /\
  int_of_str "_1" = Raise ValueError /\ int_of_str "1_" = Raise ValueError.
Proof. repeat split; reflexivity. Qed.

Example isdigit_examples :
  isdigit "123" = true /\ isdigit "abc" = false /\ isdigit "" = false /\
  isdigit "+5" = false /\ isdigit " 42" = false.
Proof. repeat split; reflexivity. Qed.

(** Beyond ASCII: superscript two (U+00B2) is a digit for [str.isdigit]
    and not for [int]; the no-break space (U+00A0) is white space for
    [int]. *)
Example latin1_examples :
  isdigit (String "178" "") = true /\
  isdigit (String "049" (String "178" "")) = true /\
  int_of_str (String "178" "") = Raise ValueError /\
  int_of_str (String "049" (String "178" "")) = Raise ValueError /\
  int_of_str (String "160" "5") = Ok 5%Z /\
  int_of_str (String "045" (String "160" "5")) = Raise ValueError /\
  int_of_str (String "028" "5") = Raise ValueError.
Proof. repeat split; reflexivity. Qed.

Example py_str_examples :
  py_str VNone = "None" /\ py_str (VBool true) = "True" /\
  py_str (VInt (-3)) = "-3" /\ py_str (VStr "x") = "x" /\
  py_str (VUUID 0x12345678123456781234567812345678)
  = "12345678-1234-5678-1234-567812345678".
Proof. repeat split; reflexivity. Qed.

Example slug_examples :
  slug_of_uuid 0 = "AAAAAAAAAAAAAAAAAAAAAA" /\
  slug_of_uuid 42 = "AAAAAAAAAAAAAAAAAAAAKg" /\
  slug_of_uuid (2 ^ 128 - 1) = "_____________________w" /\
  uuid_of_slug "AAAAAAAAAAAAAAAAAAAAKg" = Ok 42%N /\
  uuid_of_slug "AAAA" = Raise ValueError /\
  uuid_of_slug "AAAAAAAAAAAAAAAAAAAA+g" = Raise ValueError.
Proof. repeat split; reflexivity. Qed.

(** ** The constructor *)

Lemma new_variant_eq c ma tp ti ii :
  is_variant c = true ->
  new c ma tp ti ii =
    Ok (after (IdMapper_init (or_none ma) (or_none tp) (or_none ti) (or_none ii))
              (MkInstance c ∅)).
Proof.
  intros Hc. unfold new, after.
  destruct c; [discriminate | |];
    unfold IdMapper_init, bind, store_if_truthy, store_attr, ret;
    repeat (destruct (truthy _); simpl); reflexivity.
Qed.

Lemma new_class c ma tp ti ii m :
  is_variant c = true -> new c ma tp ti ii = Ok m -> inst_class m = c.
Proof.
  intros Hc. rewrite new_variant_eq by assumption. intros [= <-].
  unfold after, IdMapper_init, bind, store_if_truthy, store_attr, ret.
  repeat (destruct (truthy _); simpl); reflexivity.
Qed.

(** After construction the instance dictionary holds exactly the truthy
    arguments. *)
Lemma new_dict_lookup c ma tp ti ii m (s : slot) :
  is_variant c = true -> new c ma tp ti ii = Ok m ->
  inst_dict m !! slot_name s =
    let o := or_none (passed s ma tp ti ii) in
    if truthy o then Some o else None.
Proof.
  intros Hc. rewrite new_variant_eq by assumption. intros [= <-].
  unfold after, IdMapper_init, bind, store_if_truthy, store_attr, ret.
  destruct s; simpl;
    destruct (truthy (or_none ma)), (truthy (or_none tp)),
             (truthy (or_none ti)), (truthy (or_none ii)); simpl;
    by simplify_map_eq.
Qed.

(** Every slot has a class-level default in both variants. *)
Lemma class_default_exists c (s : slot) :
  is_variant c = true -> is_Some (class_lookup c (slot_name s)).
Proof.
  intros Hc. destruct c; [discriminate | |]; destruct s; vm_compute; eauto.
Qed.

(** The attribute seen on an instance: a truthy argument of the
    constructor, otherwise the class-level default through the descriptor
    protocol. *)
Lemma new_getattr c ma tp ti ii m (s : slot) :
  is_variant c = true -> new c ma tp ti ii = Ok m ->
  instance_getattr m (slot_name s) =
    let o := or_none (passed s ma tp ti ii) in
    if truthy o then Ok (Plain o)
    else match class_lookup c (slot_name s) with
         | Some a => Ok (descr_get a)
         | None => Raise AttributeError
         end.
Proof.
  intros Hc Hm. unfold instance_getattr.
  rewrite (new_dict_lookup c ma tp ti ii m s Hc Hm), (new_class _ _ _ _ _ _ Hc Hm).
  simpl. destruct (truthy _); reflexivity.
Qed.

(** ** Decimal printing and parsing *)

Lemma digit_char_is_digit d : (d < 10)%N -> is_digit (digit_char d) = true.
Proof.
  intros H.
  assert (Hd : d ∈ [0; 1; 2; 3; 4; 5; 6; 7; 8; 9]%N).
  { rewrite !elem_of_cons. lia. }
  rewrite !elem_of_cons, elem_of_nil in Hd.
  repeat (destruct Hd as [-> | Hd]; [reflexivity |]). destruct Hd.
Qed.

Lemma digit_val_char d : (d < 10)%N -> digit_val (digit_char d) = d.
Proof.
  intros H.
  assert (Hd : d ∈ [0; 1; 2; 3; 4; 5; 6; 7; 8; 9]%N).
  { rewrite !elem_of_cons. lia. }
  rewrite !elem_of_cons, elem_of_nil in Hd.
  repeat (destruct Hd as [-> | Hd]; [reflexivity |]). destruct Hd.
Qed.

Lemma size_nat_gt n : (n < 2 ^ N.of_nat (N.size_nat n))%N.
Proof.
  destruct n as [| p]; [reflexivity |]. simpl N.size_nat.
  induction p as [p IH | p IH |]; simpl Pos.size_nat.
  - rewrite Nat2N.inj_succ, N.pow_succ_r'. lia.
  - rewrite Nat2N.inj_succ, N.pow_succ_r'. lia.
  - reflexivity.
Qed.

(** Scanning one digit in front of a string of digits. *)
Lemma scan_digit_step d tail a st k t :
  (d < 10)%N ->
  (forall b, scan_digits tail b AfterDigit = Some (b * 10 ^ k + t, "")%N) ->
  scan_digits (String (digit_char d) tail) a st
  = Some (a * 10 ^ N.succ k + d * 10 ^ k + t, "")%N.
Proof.
  intros Hd Htail. simpl.
  rewrite digit_char_is_digit, digit_val_char, Htail by assumption.
  f_equal. f_equal. rewrite N.pow_succ_r'. lia.
Qed.

(** The scanner reads back what [digits_onto] wrote, whatever was
    accumulated before and whatever follows, as long as what follows is
    itself a run of digits. *)
Lemma scan_digits_onto fuel : forall n tail k t,
  (n < 2 ^ N.of_nat fuel)%N ->
  (forall b, scan_digits tail b AfterDigit = Some (b * 10 ^ k + t, "")%N) ->
  exists k', forall a st,
    scan_digits (digits_onto fuel n tail) a st
    = Some (a * 10 ^ k' + n * 10 ^ k + t, "")%N.
Proof.
  induction fuel as [| fuel IH]; intros n tail k t Hn Htail.
  - assert (n = 0%N) as -> by (simpl in Hn; lia).
    exists (N.succ k). intros a st.
    apply (scan_digit_step 0); [lia | assumption].
  - cbn [digits_onto]. destruct (N.ltb_spec n 10) as [Hlt | Hge].
    + exists (N.succ k). intros a st. rewrite N.mod_small by assumption.
      apply scan_digit_step; assumption.
    + destruct (IH (n / 10)%N (String (digit_char (n mod 10)) tail)
                  (N.succ k) ((n mod 10) * 10 ^ k + t)%N) as [k' Hk'].
      * rewrite Nat2N.inj_succ, N.pow_succ_r' in Hn.
        apply N.Div0.div_lt_upper_bound. lia.
      * intros b.
        rewrite (scan_digit_step (n mod 10) tail b AfterDigit k t);
          [| apply N.mod_lt; lia | assumption].
        f_equal. f_equal. lia.
      * exists k'. intros a st. rewrite Hk'. f_equal. f_equal.
        rewrite N.pow_succ_r'.
        pose proof (N.div_mod n 10 ltac:(lia)) as Hdm.
        set (q := (n / 10)%N) in *. set (d := (n mod 10)%N) in *.
        set (p := (10 ^ k)%N). rewrite Hdm. lia.
Qed.

Lemma scan_str_of_N n a st :
  exists k, scan_digits (str_of_N n) a st = Some (a * 10 ^ k + n, "")%N.
Proof.
  destruct (scan_digits_onto (N.size_nat n) n "" 0 0 (size_nat_gt n)) as [k Hk].
  - intros b. simpl. f_equal. f_equal. lia.
  - exists k. unfold str_of_N. rewrite Hk. f_equal. f_equal. lia.
Qed.

(** The first character written by [digits_onto] is a digit: neither white
    space nor a sign. *)
Lemma digits_onto_head fuel : forall n tail,
  exists c r, digits_onto fuel n tail = String c r /\ is_digit c = true.
Proof.
  induction fuel as [| fuel IH]; intros n tail; cbn [digits_onto].
  - eexists _, _. split; [reflexivity |].
    apply digit_char_is_digit, N.mod_lt. lia.
  - destruct (n <? 10)%N; [| apply IH].
    eexists _, _. split; [reflexivity |].
    apply digit_char_is_digit, N.mod_lt. lia.
Qed.

Lemma is_digit_range c :
  is_digit c = true <-> (48 <= code c <= 57)%N.
Proof.
  unfold is_digit. rewrite andb_true_iff, !N.leb_le. reflexivity.
Qed.

Lemma is_digit_not_space c : is_digit c = true -> is_space c = false.
Proof.
  rewrite is_digit_range. intros H. unfold is_space.
  rewrite !orb_false_iff, andb_false_iff, !N.eqb_neq, !N.leb_gt. lia.
Qed.

Lemma is_digit_not_sign c :
  is_digit c = true -> (code c =? 45)%N = false /\ (code c =? 43)%N = false.
Proof. rewrite is_digit_range, !N.eqb_neq. lia. Qed.

Lemma lstrip_digit c r : is_digit c = true -> lstrip (String c r) = String c r.
Proof. intros H. simpl. by rewrite (is_digit_not_space c H). Qed.

Lemma take_sign_digit c r :
  is_digit c = true -> take_sign (String c r) = (false, String c r).
Proof. intros H. simpl. by destruct (is_digit_not_sign c H) as [-> ->]. Qed.

(** [int(str(n)) == n] for a natural number. *)
Lemma int_of_str_of_N n : int_of_str (str_of_N n) = Ok (Z.of_N n).
Proof.
  unfold int_of_str.
  destruct (digits_onto_head (N.size_nat n) n "") as (c & r & Hs & Hc).
  fold (str_of_N n) in Hs.
  destruct (scan_str_of_N n 0 AtStart) as [k Hk].
  rewrite Hs in *.
  rewrite (lstrip_digit c r Hc), (take_sign_digit c r Hc), Hk.
  cbn [lstrip]. by rewrite N.mul_0_l, N.add_0_l.
Qed.

(** [int(str(z)) == z] for every integer. *)
Lemma int_of_str_of_Z z : int_of_str (str_of_Z z) = Ok z.
Proof.
  destruct z as [| p | p]; cbn [str_of_Z].
  - reflexivity.
  - by rewrite int_of_str_of_N.
  - unfold int_of_str.
    change (take_sign (lstrip (String "-" (str_of_N (N.pos p)))))
      with (true, str_of_N (N.pos p)).
    destruct (scan_str_of_N (Npos p) 0 AtStart) as [k Hk].
    rewrite Hk. cbn [lstrip]. by rewrite N.mul_0_l, N.add_0_l.
Qed.

(** ** The operations as functions of the configuration *)

Lemma get_path_from_object_frame obj m : after (get_path_from_object obj) m = m.
Proof.
  unfold after, get_path_from_object, Mapper_get_path_from_object,
    IdMapper_get_path_from_object, bind, load_attr, lift, raise.
  destruct (inst_class m); cbn; try reflexivity;
    destruct (instance_getattr m "transform_to_path"); cbn; try reflexivity;
    destruct (instance_getattr m "mapping_attribute"); cbn; try reflexivity;
    destruct (py_getattr obj _); reflexivity.
Qed.

Lemma get_id_from_path_frame path m : after (get_id_from_path path) m = m.
Proof.
  unfold after, get_id_from_path, Mapper_get_id_from_path,
    IdMapper_get_id_from_path, bind, load_attr, lift, raise.
  destruct (inst_class m); cbn; try reflexivity;
    destruct (instance_getattr m "transform_to_id"); reflexivity.
Qed.

Lemma is_id_frame x m : after (is_id x) m = m.
Proof.
  unfold after, is_id, bind, load_attr, lift. cbn.
  destruct (instance_getattr m "is_id"); reflexivity.
Qed.

Lemma run_frame o m : after (run o) m = m.
Proof.
  destruct o; [apply get_path_from_object_frame
              | apply get_id_from_path_frame | apply is_id_frame].
Qed.

(** [get_path_from_object] on a variant: look the attribute up, apply the
    configured transform. *)
Lemma get_path_from_object_variant m obj f name :
  is_variant (inst_class m) = true ->
  instance_getattr m "transform_to_path" = Ok f ->
  instance_getattr m "mapping_attribute" = Ok name ->
  result_of (get_path_from_object obj) m =
    match py_getattr obj name with
    | Ok v => call_bound f v
    | Raise e => Raise e
    end.
Proof.
  intros Hc Hf Hn.
  unfold result_of, get_path_from_object, IdMapper_get_path_from_object,
    bind, load_attr, lift.
  destruct (inst_class m); [discriminate | |]; cbn; rewrite Hf, Hn; cbn;
    destruct (py_getattr obj name); reflexivity.
Qed.

Lemma get_id_from_path_variant m path f :
  is_variant (inst_class m) = true ->
  instance_getattr m "transform_to_id" = Ok f ->
  result_of (get_id_from_path path) m = call_bound f path.
Proof.
  intros Hc Hf.
  unfold result_of, get_id_from_path, IdMapper_get_id_from_path,
    bind, load_attr, lift.
  destruct (inst_class m); [discriminate | |]; cbn; rewrite Hf; reflexivity.
Qed.

Lemma is_id_call m x f :
  instance_getattr m "is_id" = Ok f ->
  result_of (is_id x) m = call_bound f x.
Proof.
  intros Hf. unfold result_of, is_id, bind, load_attr, lift. cbn.
  rewrite Hf. reflexivity.
Qed.

(** Sequencing: the second computation runs on the receiver left by the
    first. *)
Lemma result_of_bind {A B} (c : M A) (k : A -> M B) m :
  result_of (bind c k) m =
    match result_of c m with
    | Ok a => result_of (k a) (after c m)
    | Raise e => Raise e
    end.
Proof.
  unfold result_of, after, bind. destruct (c m) as [[a | e] m']; reflexivity.
Qed.

(** The configuration of a default-constructed mapper of each variant. *)
Lemma new_default_getattr c m (s : slot) :
  is_variant c = true -> new c None None None None = Ok m ->
  instance_getattr m (slot_name s) =
    match class_lookup c (slot_name s) with
    | Some a => Ok (descr_get a)
    | None => Raise AttributeError
    end.
Proof.
  intros Hc Hm. rewrite (new_getattr c None None None None m s Hc Hm).
  destruct s; reflexivity.
Qed.

Lemma IdMapper_default_config m :
  new IdMapper None None None None = Ok m ->
  inst_class m = IdMapper /\
  instance_getattr m "mapping_attribute" = Ok (Plain (Data (VStr "id"))) /\
  instance_getattr m "transform_to_path" = Ok (Plain (Builtin TStr)) /\
  instance_getattr m "transform_to_id" = Ok (Plain (Builtin TInt)) /\
  instance_getattr m "is_id" = Ok (Plain (Function FnIsdigit)).
Proof.
  intros Hm. split; [by apply (new_class IdMapper None None None None) |].
  pose proof (fun s => new_default_getattr IdMapper m s eq_refl Hm) as H.
  pose proof (H MappingAttribute). pose proof (H TransformToPath).
  pose proof (H TransformToId). pose proof (H IsId). auto.
Qed.

Lemma Base64UUIDMapper_default_config m :
  new Base64UUIDMapper None None None None = Ok m ->
  inst_class m = Base64UUIDMapper /\
  instance_getattr m "mapping_attribute" = Ok (Plain (Data (VStr "uuid"))) /\
  instance_getattr m "transform_to_path" = Ok (Method FnSlugToUuid) /\
  instance_getattr m "transform_to_id" = Ok (Method FnUuidToSlug) /\
  instance_getattr m "is_id" = Ok (Method FnTrue).
Proof.
  intros Hm. split; [by apply (new_class Base64UUIDMapper None None None None) |].
  pose proof (fun s => new_default_getattr Base64UUIDMapper m s eq_refl Hm) as H.
  pose proof (H MappingAttribute). pose proof (H TransformToPath).
  pose proof (H TransformToId). pose proof (H IsId). auto.
Qed.

(** ** The integer variant *)


Lemma is_unicode_digit_spec c :
  is_unicode_digit c = true <->
  (48 <= N_of_ascii c <= 57)%N \/
  N_of_ascii c = 178%N \/ N_of_ascii c = 179%N \/ N_of_ascii c = 185%N.
Proof.
  unfold is_unicode_digit. rewrite !orb_true_iff, is_digit_range, !N.eqb_eq.
  unfold code. tauto.
Qed.

(** In the ASCII range the digits are the decimal digits. *)
Lemma is_unicode_digit_ascii c :
  (N_of_ascii c < 128)%N -> is_unicode_digit c = is_digit c.
Proof.
  intros Hc. destruct (is_digit c) eqn:Hd.
  - apply is_unicode_digit_spec. left. by apply is_digit_range.
  - destruct (is_unicode_digit c) eqn:Hu; [| reflexivity].
    apply is_unicode_digit_spec in Hu as [Hu | Hu]; [| lia].
    apply is_digit_range in Hu. congruence.
Qed.


(** On an ASCII string [str.isdigit] is the test for decimal digits. *)
Lemma isdigit_ascii s :
  (forall c, In c (list_ascii_of_string s) -> (N_of_ascii c < 128)%N) ->
  isdigit s = match s with
              | EmptyString => false
              | String _ _ => all_chars is_digit s
              end.
Proof.
  intros Hascii. destruct s as [| c0 s0]; [reflexivity |]. unfold isdigit.
  induction (String c0 s0) as [| c s IH]; [reflexivity |].
  cbn [all_chars]. rewrite is_unicode_digit_ascii by (apply Hascii; by left).
  f_equal. apply IH. intros c' Hin. apply Hascii. by right.
Qed.


(** Decimal digits are digits. *)
Lemma all_chars_decimal_digit s :
  all_chars is_digit s = true -> all_chars is_unicode_digit s = true.
Proof.
  induction s as [| c s IH]; [reflexivity |]. cbn [all_chars].
  rewrite !andb_true_iff. intros [Hc Hs]. split; [| auto].
  unfold is_unicode_digit. by rewrite Hc.
Qed.

(** A run of digits is scanned to its end. *)
Lemma scan_all_digits s : forall acc st,
  all_chars is_digit s = true ->
  s <> "" \/ st = AfterDigit ->
  exists n, scan_digits s acc st = Some (n, "").
Proof.
  induction s as [| c s IH]; intros acc st Hall Hst.
  - destruct Hst as [Hne | ->]; [by destruct Hne | by eexists].
  - cbn [all_chars] in Hall. apply andb_true_iff in Hall as [Hc Hs].
    cbn [scan_digits]. rewrite Hc. apply IH; auto.
Qed.

(** What [str.isdigit] accepts of the ASCII strings, [int] parses. *)
Lemma isdigit_int_of_str s :
  (forall c, In c (list_ascii_of_string s) -> (N_of_ascii c < 128)%N) ->
  isdigit s = true -> exists n, int_of_str s = Ok (Z.of_N n).
Proof.
  intros Hascii. rewrite (isdigit_ascii s Hascii).
  destruct s as [| c s]; [discriminate |]. intros Hall.
  pose proof Hall as Hc. cbn [all_chars] in Hc.
  apply andb_true_iff in Hc as [Hc _].
  destruct (scan_all_digits (String c s) 0 AtStart Hall) as [n Hn];
    [by left |].
  exists n. unfold int_of_str.
  by rewrite (lstrip_digit c s Hc), (take_sign_digit c s Hc), Hn.
Qed.

(** On a default [IdMapper], [is_id] is [str.isdigit]. *)
Lemma IdMapper_is_id_isdigit m s :
  new IdMapper None None None None = Ok m ->
  result_of (is_id (VStr s)) m = Ok (VBool (isdigit s)).
Proof.
  intros Hm. destruct (IdMapper_default_config m Hm) as (_ & _ & _ & _ & Hi).
  by rewrite (is_id_call m (VStr s) _ Hi).
Qed.

(** On a default [IdMapper], [get_id_from_path] is [int]. *)
Lemma IdMapper_get_id_from_path_int m path :
  new IdMapper None None None None = Ok m ->
  result_of (get_id_from_path path) m = py_int path.
Proof.
  intros Hm. destruct (IdMapper_default_config m Hm) as (Hc & _ & _ & Ht & _).
  rewrite (get_id_from_path_variant m path (Plain (Builtin TInt))); auto.
  by rewrite Hc.
Qed.

(** On a default [IdMapper], [get_path_from_object] is [str] of the [id]
    attribute, and an [AttributeError] without one. *)
Lemma IdMapper_get_path_from_object_str m (obj : domobj) :
  new IdMapper None None None None = Ok m ->
  result_of (get_path_from_object obj) m =
    match obj !! "id" with
    | Some v => Ok (VStr (py_str v))
    | None => Raise AttributeError
    end.
Proof.
  intros Hm. destruct (IdMapper_default_config m Hm) as (Hc & Ha & Hp & _ & _).
  rewrite (get_path_from_object_variant m obj _ _ ltac:(by rewrite Hc) Hp Ha).
  simpl. destruct (obj !! "id"); reflexivity.
Qed.

(** The round trip on every integer id, negative ones included. *)
Lemma IdMapper_round_trip_Z (z : Z) (obj : domobj) (m : instance) :
  new IdMapper None None None None = Ok m ->
  obj !! "id" = Some (VInt z) ->
  result_of (let* p := get_path_from_object obj in get_id_from_path p) m
  = Ok (VInt z).
Proof.
  intros Hm Hobj.
  rewrite result_of_bind, get_path_from_object_frame.
  rewrite (IdMapper_get_path_from_object_str m obj Hm), Hobj.
  rewrite (IdMapper_get_id_from_path_int m _ Hm).
  cbn [py_str py_int]. by rewrite int_of_str_of_Z.
Qed.

(** C2: on the default integer variant, mapping an object whose [id] is a
    non-negative integer [n] to its path and the path back to an id gives
    [n]: [get_id_from_path(get_path_from_object(obj)) == n], that is,
    [int(str(n)) == n]. *)
Theorem IdMapper_round_trip (n : Z) (obj : domobj) (m : instance) :
  (0 <= n)%Z ->
  new IdMapper None None None None = Ok m ->
  obj !! "id" = Some (VInt n) ->
  result_of (let* p := get_path_from_object obj in get_id_from_path p) m
  = Ok (VInt n).
Proof. intros _. apply IdMapper_round_trip_Z. Qed.

Lemma IdMapper_round_trip_witness :
  exists m,
    (0 <= 2015)%Z /\
    new IdMapper None None None None = Ok m /\
    ({[ "id" := VInt 2015 ]} : domobj) !! "id" = Some (VInt 2015) /\
    result_of (let* p := get_path_from_object {[ "id" := VInt 2015 ]} in
               get_id_from_path p) m = Ok (VInt 2015).
Proof.
  exists (MkInstance IdMapper ∅).
  split; [lia |]. split; [reflexivity |]. split; [reflexivity |].
  apply (IdMapper_round_trip 2015); [lia | reflexivity | reflexivity].
Defined.



(** C10: on the default integer variant a false [is_id] does not mean that
    [get_id_from_path] fails: ["+5"] and [" 42"] are rejected by [is_id],
    since they contain a character that is not a digit, and are parsed by
    [get_id_from_path] into 5 and 42, since [int] accepts a sign and
    surrounding white space. *)
Theorem IdMapper_is_id_false_yet_parsed (m : instance) :
  new IdMapper None None None None = Ok m ->
  (result_of (is_id (VStr "+5")) m = Ok (VBool false) /\
   result_of (get_id_from_path (VStr "+5")) m = Ok (VInt 5)) /\
  (result_of (is_id (VStr " 42")) m = Ok (VBool false) /\
   result_of (get_id_from_path (VStr " 42")) m = Ok (VInt 42)).
Proof.
  intros Hm.
  rewrite !(IdMapper_is_id_isdigit m _ Hm), !(IdMapper_get_id_from_path_int m _ Hm).
  by repeat split.
Qed.

Lemma IdMapper_is_id_false_yet_parsed_witness :
  exists m,
    new IdMapper None None None None = Ok m /\
    result_of (is_id (VStr "+5")) m = Ok (VBool false) /\
    result_of (get_id_from_path (VStr "+5")) m = Ok (VInt 5).
Proof.
  exists (MkInstance IdMapper ∅). split; [reflexivity |].
  exact (proj1 (IdMapper_is_id_false_yet_parsed (MkInstance IdMapper ∅) eq_refl)).
Defined.

(** ** Construction and statelessness *)

(** C7: the constructor of each variant takes an optional override for
    each of the four slots.  A slot whose argument is not passed resolves
    to the class-level default; a supplied (truthy) override is what the
    instance resolves the slot to.  No operation changes this afterwards.
    With [mapping_attribute="external_ref"], [get_path_from_object] reads
    [external_ref] off the object: it applies the transform to that value
    and raises [AttributeError] when that attribute is missing, whatever
    the object has under the default name. *)
Theorem constructor_overrides
    (c : class) (ma tp ti ii : option pyobj) (m : instance) :
  is_variant c = true ->
  new c ma tp ti ii = Ok m ->
  (forall s : slot,
     match passed s ma tp ti ii with
     | None =>
         exists a, class_lookup c (slot_name s) = Some a /\
                   instance_getattr m (slot_name s) = Ok (descr_get a)
     | Some o =>
         truthy o = true -> instance_getattr m (slot_name s) = Ok (Plain o)
     end) /\
  (forall (o : operation) (s : slot),
     instance_getattr (after (run o) m) (slot_name s)
     = instance_getattr m (slot_name s)) /\
  (ma = Some (Data (VStr "external_ref")) ->
   exists f, instance_getattr m "transform_to_path" = Ok f /\
     forall obj : domobj,
       result_of (get_path_from_object obj) m =
         match obj !! "external_ref" with
         | Some v => call_bound f v
         | None => Raise AttributeError
         end).
Proof.
  intros Hc Hm. split; [| split].
  - intros s. pose proof (new_getattr c ma tp ti ii m s Hc Hm) as Hs.
    destruct (passed s ma tp ti ii) as [o |]; cbn in Hs.
    + intros Ho. by rewrite Ho in Hs.
    + destruct (class_default_exists c s Hc) as [a Ha]. rewrite Ha in Hs.
      by exists a.
  - intros o s. by rewrite run_frame.
  - intros ->.
    pose proof (new_getattr c _ tp ti ii m MappingAttribute Hc Hm) as Ha.
    pose proof (new_getattr c _ tp ti ii m TransformToPath Hc Hm) as Hp.
    cbn in Ha, Hp.
    assert (exists f, instance_getattr m "transform_to_path" = Ok f) as [f Hf].
    { rewrite Hp. destruct (truthy _); [by eexists |].
      destruct (class_default_exists c TransformToPath Hc) as [a Hl].
      cbn in Hl. rewrite Hl. by eexists. }
    exists f. split; [assumption |]. intros obj.
    rewrite (get_path_from_object_variant m obj f _
               ltac:(by rewrite (new_class _ _ _ _ _ _ Hc Hm)) Hf Ha).
    simpl. destruct (obj !! "external_ref"); reflexivity.
Qed.

Lemma constructor_overrides_witness :
  exists m,
    new IdMapper (Some (Data (VStr "external_ref"))) None None None = Ok m /\
    instance_getattr m "mapping_attribute"
    = Ok (Plain (Data (VStr "external_ref"))) /\
    instance_getattr m "transform_to_path" = Ok (Plain (Builtin TStr)).
Proof.
  exists (MkInstance IdMapper {[ "mapping_attribute" := Data (VStr "external_ref") ]}).
  pose proof (constructor_overrides IdMapper
                (Some (Data (VStr "external_ref"))) None None None
                _ eq_refl eq_refl) as [H _].
  split; [reflexivity |]. split.
  - exact (H MappingAttribute eq_refl).
  - destruct (H TransformToPath) as (a & Ha & Hg).
    injection Ha as <-. exact Hg.
Defined.

(** C9: the constructor tests the truth value of an override, not whether
    it was passed: when the argument passed for a slot is falsy (such as
    [""], [None], [0] or [False]) nothing is stored on the instance and the
    slot still resolves to the class-level default. *)
Theorem falsy_override_keeps_default
    (c : class) (ma tp ti ii : option pyobj) (m : instance) (s : slot) (o : pyobj) :
  is_variant c = true ->
  new c ma tp ti ii = Ok m ->
  passed s ma tp ti ii = Some o ->
  truthy o = false ->
  inst_dict m !! slot_name s = None /\
  exists a, class_lookup c (slot_name s) = Some a /\
            instance_getattr m (slot_name s) = Ok (descr_get a).
Proof.
  intros Hc Hm Hs Ho.
  pose proof (new_dict_lookup c ma tp ti ii m s Hc Hm) as Hd.
  pose proof (new_getattr c ma tp ti ii m s Hc Hm) as Hg.
  rewrite Hs in Hd, Hg. cbn in Hd, Hg. rewrite Ho in Hd, Hg.
  split; [assumption |].
  destruct (class_default_exists c s Hc) as [a Ha]. rewrite Ha in Hg.
  by exists a.
Qed.

Lemma falsy_override_keeps_default_witness :
  exists m m',
    new IdMapper (Some (Data (VStr ""))) None None None = Ok m /\
    instance_getattr m "mapping_attribute" = Ok (Plain (Data (VStr "id"))) /\
    new Base64UUIDMapper None None None (Some (Data VNone)) = Ok m' /\
    instance_getattr m' "is_id" = Ok (Method FnTrue).
Proof.
  exists (MkInstance IdMapper ∅), (MkInstance Base64UUIDMapper ∅).
  split; [reflexivity |]. split.
  - destruct (falsy_override_keeps_default IdMapper
                (Some (Data (VStr ""))) None None None _ MappingAttribute _
                eq_refl eq_refl eq_refl eq_refl) as (_ & a & Ha & Hg).
    injection Ha as <-. exact Hg.
  - split; [reflexivity |].
    destruct (falsy_override_keeps_default Base64UUIDMapper
                None None None (Some (Data VNone)) _ IsId _
                eq_refl eq_refl eq_refl eq_refl) as (_ & a & Ha & Hg).
    injection Ha as <-. exact Hg.
Defined.

(** C8: no operation writes to the mapper.  After [get_path_from_object],
    [get_id_from_path] or [is_id] the instance is the one it was, so each of
    the four slots resolves as before, and an operation gives the same
    result whatever operations ran before it: in particular invoking it
    twice on equal inputs gives equal results. *)
Theorem operations_leave_mapper_unchanged (m : instance) (o o' : operation) :
  after (run o) m = m /\
  (forall s : slot,
     instance_getattr (after (run o) m) (slot_name s)
     = instance_getattr m (slot_name s)) /\
  result_of (run o') (after (run o) m) = result_of (run o') m /\
  result_of (run o) (after (run o) m) = result_of (run o) m.
Proof. rewrite run_frame. auto. Qed.

(** ** Slugs *)

Lemma b64_val_char d : (d < 64)%N -> b64_val (b64_char d) = Some d.
Proof.
  intros H. rewrite <- (N2Nat.id d).
  assert (Hk : N.to_nat d < 64) by lia.
  generalize dependent (N.to_nat d). intros k Hk.
  do 64 (destruct k as [| k]; [reflexivity |]). lia.
Qed.

Lemma read_sextets_onto k : forall n tail acc,
  read_sextets (sextets_onto k n tail) acc
  = read_sextets tail (acc * 64 ^ N.of_nat k + n mod 64 ^ N.of_nat k)%N.
Proof.
  induction k as [| k IH]; intros n tail acc.
  - simpl. f_equal. rewrite N.mod_1_r. lia.
  - cbn [sextets_onto]. rewrite IH. cbn [read_sextets].
    rewrite b64_val_char by (apply N.mod_lt; lia). f_equal.
    rewrite Nat2N.inj_succ, N.pow_succ_r'.
    rewrite (N.Div0.mod_mul_r n 64). lia.
Qed.

Lemma length_sextets_onto k : forall n tail,
  String.length (sextets_onto k n tail) = (k + String.length tail)%nat.
Proof.
  induction k as [| k IH]; intros n tail; cbn [sextets_onto].
  - reflexivity.
  - rewrite IH. simpl. lia.
Qed.

(** Decoding the slug of a UUID gives the UUID back. *)
Lemma slug_round_trip u :
  (u < 2 ^ 128)%N -> uuid_of_slug (slug_of_uuid u) = Ok u.
Proof.
  intros Hu. unfold uuid_of_slug, slug_of_uuid.
  rewrite length_sextets_onto, read_sextets_onto. cbn [String.length Nat.add].
  change (22 + 0 =? 22)%nat with true. cbn [read_sextets]. f_equal.
  rewrite N.mul_0_l, N.add_0_l.
  change (64 ^ N.of_nat 22)%N with (2 ^ 128 * 16)%N.
  rewrite N.mod_small by lia. apply N.div_mul. lia.
Qed.

(** ** The opaque-token variant *)

(** A plain function reached through the class is a bound method: called
    with one argument it receives two and raises before its body runs. *)
Lemma call_method_raises f v : call_bound (Method f) v = Raise TypeError.
Proof. reflexivity. Qed.

(** Supplied as instance attributes in the documented roles, the slug
    functions are not bound, and the round trip holds on every UUID. *)
Lemma Base64UUIDMapper_configured_round_trip (u : N) (obj : domobj) (m : instance) :
  (u < 2 ^ 128)%N ->
  new Base64UUIDMapper None (Some (Function FnUuidToSlug))
      (Some (Function FnSlugToUuid)) None = Ok m ->
  obj !! "uuid" = Some (VUUID u) ->
  result_of (let* p := get_path_from_object obj in get_id_from_path p) m
  = Ok (VUUID u).
Proof.
  intros Hu Hm Hobj.
  pose proof (fun s => new_getattr Base64UUIDMapper _ _ _ _ m s eq_refl Hm) as H.
  pose proof (H MappingAttribute) as Ha. pose proof (H TransformToPath) as Hp.
  pose proof (H TransformToId) as Hi.
  change (instance_getattr m "mapping_attribute"
          = Ok (Plain (Data (VStr "uuid")))) in Ha.
  change (instance_getattr m "transform_to_path"
          = Ok (Plain (Function FnUuidToSlug))) in Hp.
  change (instance_getattr m "transform_to_id"
          = Ok (Plain (Function FnSlugToUuid))) in Hi.
  pose proof (new_class Base64UUIDMapper _ _ _ _ _ eq_refl Hm) as Hc.
  rewrite result_of_bind, get_path_from_object_frame.
  rewrite (get_path_from_object_variant m obj _ _ ltac:(by rewrite Hc) Hp Ha).
  cbn [py_getattr]. rewrite Hobj.
  cbn [call_bound call call_function fun_body uuid_to_slug].
  rewrite (get_id_from_path_variant m _ _ ltac:(by rewrite Hc) Hi).
  cbn [call_bound call call_function fun_body slug_to_uuid].
  by rewrite slug_round_trip.
Qed.

(** The transforms sit in each other's slot: even unbound, the function
    stored as [transform_to_path] rejects a UUID and the one stored as
    [transform_to_id] rejects a path segment. *)
Lemma Base64UUIDMapper_transforms_swapped u s :
  class_lookup Base64UUIDMapper "transform_to_path"
    = Some (Attr (Function FnSlugToUuid)) /\
  class_lookup Base64UUIDMapper "transform_to_id"
    = Some (Attr (Function FnUuidToSlug)) /\
  call (Function FnSlugToUuid) (VUUID u) = Raise TypeError /\
  call (Function FnUuidToSlug) (VStr s) = Raise TypeError.
Proof. repeat split; reflexivity. Qed.

(** C1: on a default [Base64UUIDMapper] the round trip does not hold.
    For every UUID [u], [get_path_from_object] of an object whose [uuid] is
    [u] raises [TypeError], so
    [get_id_from_path(get_path_from_object(obj))] raises too instead of
    giving [u] back. *)
Theorem Base64UUIDMapper_round_trip_raises (u : N) :
  exists m,
    new Base64UUIDMapper None None None None = Ok m /\
    result_of (get_path_from_object {[ "uuid" := VUUID u ]}) m
    = Raise TypeError /\
    result_of (let* p := get_path_from_object {[ "uuid" := VUUID u ]} in
               get_id_from_path p) m
    = Raise TypeError.
Proof.
  exists (MkInstance Base64UUIDMapper ∅). repeat split; reflexivity.
Qed.

(** C3: [is_id] invoked on a default [Base64UUIDMapper] instance raises
    [TypeError] on every string, the empty one included, instead of
    returning true. *)
Theorem Base64UUIDMapper_is_id_raises (s : string) :
  exists m,
    new Base64UUIDMapper None None None None = Ok m /\
    result_of (is_id (VStr s)) m = Raise TypeError.
Proof.
  exists (MkInstance Base64UUIDMapper ∅). split; reflexivity.
Qed.

(** The function itself, called without an instance, is constantly true;
    and [is_id] of the integer variant never raises on a string. *)
Lemma is_id_unbound_total s m :
  call (Function FnTrue) (VStr s) = Ok (VBool true) /\
  (new IdMapper None None None None = Ok m ->
   exists b, result_of (is_id (VStr s)) m = Ok (VBool b)).
Proof.
  split; [reflexivity |]. intros Hm. exists (isdigit s).
  by apply IdMapper_is_id_isdigit.
Qed.

(** [int] on a string returns an integer or raises [ValueError]. *)
Lemma int_of_str_outcome s :
  (exists z, int_of_str s = Ok z) \/ int_of_str s = Raise ValueError.
Proof.
  unfold int_of_str. destruct (take_sign (lstrip s)) as [neg body].
  destruct (scan_digits body 0 AtStart) as [[n rest] |]; [| by right].
  destruct (lstrip rest); [left; by eexists | by right].
Qed.

(** On the integer variant [get_id_from_path] returns what [int] parses
    and raises [ValueError] otherwise; ["abc"] is such a segment. *)
Lemma IdMapper_get_id_from_path_parse m s :
  new IdMapper None None None None = Ok m ->
  ((exists z, int_of_str s = Ok z /\
              result_of (get_id_from_path (VStr s)) m = Ok (VInt z)) \/
   (int_of_str s = Raise ValueError /\
    result_of (get_id_from_path (VStr s)) m = Raise ValueError)) /\
  result_of (get_id_from_path (VStr "abc")) m = Raise ValueError.
Proof.
  intros Hm. rewrite !(IdMapper_get_id_from_path_int m _ Hm).
  split; [| reflexivity]. cbn [py_int].
  destruct (int_of_str_outcome s) as [[z Hz] | Hz]; rewrite Hz; eauto.
Qed.

(** C5: on a default [Base64UUIDMapper], [get_id_from_path] raises
    [TypeError] on every path segment.  This includes
    ["AAAAAAAAAAAAAAAAAAAAAA"], a well-formed slug (that of the nil UUID):
    no identifier is returned for it.  The function that the class stores
    as [transform_to_id] is [slug.uuid_to_slug], which would reject the
    segment even if it were called unbound. *)
Theorem Base64UUIDMapper_get_id_from_path_raises (s : string) :
  exists m,
    new Base64UUIDMapper None None None None = Ok m /\
    result_of (get_id_from_path (VStr s)) m = Raise TypeError /\
    uuid_of_slug "AAAAAAAAAAAAAAAAAAAAAA" = Ok 0%N /\
    result_of (get_id_from_path (VStr "AAAAAAAAAAAAAAAAAAAAAA")) m
    = Raise TypeError /\
    class_lookup Base64UUIDMapper "transform_to_id"
    = Some (Attr (Function FnUuidToSlug)).
Proof.
  exists (MkInstance Base64UUIDMapper ∅). repeat split; reflexivity.
Qed.

(** On the integer variant [get_path_from_object] returns [str] of the
    [id] attribute when the object has one, and raises [AttributeError]
    exactly when it has none. *)
Lemma IdMapper_get_path_from_object_contract m (obj : domobj) :
  new IdMapper None None None None = Ok m ->
  (forall v, obj !! "id" = Some v ->
     result_of (get_path_from_object obj) m = call (Builtin TStr) v) /\
  (result_of (get_path_from_object obj) m = Raise AttributeError <->
   obj !! "id" = None).
Proof.
  intros Hm. rewrite (IdMapper_get_path_from_object_str m obj Hm).
  destruct (obj !! "id") as [v |]; split.
  - by intros ? [= ->].
  - split; discriminate.
  - discriminate.
  - done.
Qed.

(** C6: on a default [Base64UUIDMapper], [get_path_from_object] of an
    object that has the [uuid] attribute raises [TypeError] whatever the
    value, a UUID included: it never returns the transformed value.  For
    an attribute value on which the configured transform, applied to that
    value alone, succeeds, the method still raises.  (An object without
    the attribute gets [AttributeError].) *)
Theorem Base64UUIDMapper_get_path_from_object_raises (v : value) :
  exists m,
    new Base64UUIDMapper None None None None = Ok m /\
    result_of (get_path_from_object {[ "uuid" := v ]}) m = Raise TypeError /\
    result_of (get_path_from_object {[ "uuid" := VUUID 42 ]}) m
    = Raise TypeError /\
    (class_lookup Base64UUIDMapper "transform_to_path"
     = Some (Attr (Function FnSlugToUuid)) /\
     call (Function FnSlugToUuid) (VStr "AAAAAAAAAAAAAAAAAAAAKg")
     = Ok (VUUID 42) /\
     result_of (get_path_from_object {[ "uuid" := VStr "AAAAAAAAAAAAAAAAAAAAKg" ]}) m
     = Raise TypeError) /\
    result_of (get_path_from_object ∅) m = Raise AttributeError.
Proof.
  exists (MkInstance Base64UUIDMapper ∅). repeat split; reflexivity.
Qed.

(** ** Further properties of the integer variant *)

Lemma digit_char_val c : is_digit c = true -> digit_char (digit_val c) = c.
Proof.
  intros H. apply is_digit_range in H. unfold digit_char, digit_val.
  replace (48 + (code c - 48))%N with (code c) by lia.
  apply ascii_N_embedding.
Qed.

Lemma digit_val_lt c : is_digit c = true -> (digit_val c < 10)%N.
Proof. intros H. apply is_digit_range in H. unfold digit_val. lia. Qed.

(** [digits_onto] writes digits only. *)
Lemma all_chars_digits_onto fuel : forall n tail,
  all_chars is_digit tail = true ->
  all_chars is_digit (digits_onto fuel n tail) = true.
Proof.
  induction fuel as [| fuel IH]; intros n tail Htail; cbn [digits_onto].
  - cbn [all_chars]. rewrite Htail, digit_char_is_digit; [done |].
    apply N.mod_lt. lia.
  - assert (Hd : all_chars is_digit (String (digit_char (n mod 10)) tail) = true).
    { cbn [all_chars]. rewrite Htail, digit_char_is_digit; [done |].
      apply N.mod_lt. lia. }
    destruct (n <? 10)%N; [exact Hd | by apply IH].
Qed.

Lemma isdigit_str_of_N n : isdigit (str_of_N n) = true.
Proof.
  destruct (digits_onto_head (N.size_nat n) n "") as (c & r & Hs & _).
  fold (str_of_N n) in Hs. unfold isdigit. rewrite Hs, <- Hs.
  by apply all_chars_decimal_digit, all_chars_digits_onto.
Qed.

(** X1: the path that the default [IdMapper] generates for an integer id is
    accepted by its own [is_id] exactly when the id is not negative: the
    path of a negative id starts with a minus sign and is rejected. *)
Theorem IdMapper_generated_path_is_id (n : Z) (obj : domobj) (m : instance) :
  new IdMapper None None None None = Ok m ->
  obj !! "id" = Some (VInt n) ->
  result_of (let* p := get_path_from_object obj in is_id p) m
  = Ok (VBool (0 <=? n)%Z).
Proof.
  intros Hm Hobj.
  rewrite result_of_bind, get_path_from_object_frame.
  rewrite (IdMapper_get_path_from_object_str m obj Hm), Hobj.
  cbn [py_str]. rewrite (IdMapper_is_id_isdigit m _ Hm).
  destruct n as [| p | p]; cbn [str_of_Z].
  - reflexivity.
  - by rewrite isdigit_str_of_N.
  - reflexivity.
Qed.

Lemma IdMapper_generated_path_is_id_witness :
  exists m,
    new IdMapper None None None None = Ok m /\
    result_of (let* p := get_path_from_object {[ "id" := VInt (-7) ]} in
               is_id p) m = Ok (VBool false).
Proof.
  exists (MkInstance IdMapper ∅). split; [reflexivity |].
  exact (IdMapper_generated_path_is_id (-7) {[ "id" := VInt (-7) ]}
           (MkInstance IdMapper ∅) eq_refl eq_refl).
Defined.

(** X2: what [is_id] accepts of the ASCII segments, [get_id_from_path]
    translates: on the default [IdMapper] an ASCII segment for which
    [is_id] is true is never a parse error, and its id is not negative.
    (Beyond ASCII this fails: a superscript two passes [is_id] and is
    refused by [int].) *)
Theorem IdMapper_is_id_guards_parse (s : string) (m : instance) :
  new IdMapper None None None None = Ok m ->
  (forall c, In c (list_ascii_of_string s) -> (N_of_ascii c < 128)%N) ->
  result_of (is_id (VStr s)) m = Ok (VBool true) ->
  exists n : N,
    result_of (get_id_from_path (VStr s)) m = Ok (VInt (Z.of_N n)).
Proof.
  intros Hm Hascii. rewrite (IdMapper_is_id_isdigit m s Hm). intros [= Hs].
  destruct (isdigit_int_of_str s Hascii Hs) as [n Hn]. exists n.
  rewrite (IdMapper_get_id_from_path_int m _ Hm). cbn [py_int].
  by rewrite Hn.
Qed.

Lemma IdMapper_is_id_guards_parse_witness :
  exists m n,
    new IdMapper None None None None = Ok m /\
    result_of (is_id (VStr "0042")) m = Ok (VBool true) /\
    result_of (get_id_from_path (VStr "0042")) m = Ok (VInt (Z.of_N n)).
Proof.
  exists (MkInstance IdMapper ∅).
  assert (Hascii : forall c, In c (list_ascii_of_string "0042") ->
                             (N_of_ascii c < 128)%N).
  { intros c [<- | [<- | [<- | [<- | []]]]]; reflexivity. }
  destruct (IdMapper_is_id_guards_parse "0042" (MkInstance IdMapper ∅)
              eq_refl Hascii eq_refl) as [n Hn].
  exists n. split; [reflexivity |]. split; [reflexivity | exact Hn].
Defined.

(** X3: objects with different integer ids get different paths from the
    default [IdMapper]. *)
Theorem IdMapper_paths_injective (a b : Z) (obj1 obj2 : domobj) (m : instance) :
  new IdMapper None None None None = Ok m ->
  obj1 !! "id" = Some (VInt a) ->
  obj2 !! "id" = Some (VInt b) ->
  result_of (get_path_from_object obj1) m
  = result_of (get_path_from_object obj2) m ->
  a = b.
Proof.
  intros Hm H1 H2.
  rewrite !(IdMapper_get_path_from_object_str m _ Hm), H1, H2.
  cbn [py_str]. intros [= Heq].
  pose proof (int_of_str_of_Z a) as Ha. rewrite Heq, int_of_str_of_Z in Ha.
  congruence.
Qed.

Lemma IdMapper_paths_injective_witness :
  exists m,
    new IdMapper None None None None = Ok m /\ (12 = 12)%Z.
Proof.
  exists (MkInstance IdMapper ∅). split; [reflexivity |].
  exact (IdMapper_paths_injective 12 12 {[ "id" := VInt 12 ]}
           {[ "id" := VInt 12; "name" := VStr "x" ]}
           (MkInstance IdMapper ∅) eq_refl eq_refl eq_refl eq_refl).
Defined.





(** The fuel of [digits_onto] does not matter once it covers the number. *)
Lemma digits_onto_fuel f1 : forall f2 n tail,
  (n < 2 ^ N.of_nat f1)%N -> (n < 2 ^ N.of_nat f2)%N ->
  digits_onto f1 n tail = digits_onto f2 n tail.
Proof.
  induction f1 as [| f1 IH]; intros f2 n tail H1 H2.
  - assert (n = 0%N) as -> by (simpl in H1; lia). by destruct f2.
  - destruct f2 as [| f2].
    + assert (n = 0%N) as -> by (simpl in H2; lia). reflexivity.
    + cbn [digits_onto]. destruct (N.ltb_spec n 10) as [Hlt | Hge]; [done |].
      rewrite Nat2N.inj_succ, N.pow_succ_r' in H1, H2.
      apply IH; apply N.Div0.div_lt_upper_bound; lia.
Qed.

(** Writing [10 * n + d] is writing [n] in front of the digit [d]. *)
Lemma digits_onto_step n d tail :
  (0 < n)%N -> (d < 10)%N ->
  digits_onto (N.size_nat (10 * n + d)) (10 * n + d) tail
  = digits_onto (N.size_nat n) n (String (digit_char d) tail).
Proof.
  intros Hn Hd. pose proof (size_nat_gt (10 * n + d)) as Hs.
  destruct (N.size_nat (10 * n + d)) as [| k]; [simpl in Hs; lia |].
  cbn [digits_onto]. destruct (N.ltb_spec (10 * n + d) 10) as [Hlt | _]; [lia |].
  assert (((10 * n + d) / 10 = n)%N) as ->.
  { rewrite N.mul_comm, N.div_add_l by lia. rewrite N.div_small by lia. lia. }
  assert (((10 * n + d) mod 10 = d)%N) as ->.
  { rewrite N.add_comm, N.mul_comm, N.Div0.mod_add. by apply N.mod_small. }
  rewrite Nat2N.inj_succ, N.pow_succ_r' in Hs.
  apply digits_onto_fuel; [lia | apply size_nat_gt].
Qed.

Lemma append_empty_r s : String.append s "" = s.
Proof.
  induction s as [| c s IH]; [reflexivity |].
  change (String c (String.append s "") = String c s). by rewrite IH.
Qed.

(** Printing the number that the scanner read from a run of digits, begun
    with a positive accumulator, gives the printed accumulator followed by
    the run. *)
Lemma digits_onto_scan s : forall a n tail,
  all_chars is_digit s = true ->
  (0 < a)%N ->
  scan_digits s a AfterDigit = Some (n, "") ->
  digits_onto (N.size_nat n) n tail
  = digits_onto (N.size_nat a) a (String.append s tail).
Proof.
  induction s as [| c r IH]; intros a n tail Hall Ha Hscan.
  - cbn in Hscan. by injection Hscan as <-.
  - cbn [all_chars] in Hall. apply andb_true_iff in Hall as [Hc Hr].
    cbn [scan_digits] in Hscan. rewrite Hc in Hscan.
    rewrite (IH (10 * a + digit_val c)%N n tail Hr ltac:(lia) Hscan).
    rewrite digits_onto_step by (auto using digit_val_lt).
    by rewrite (digit_char_val c Hc).
Qed.

Lemma digits_onto_small f d tail :
  (d < 10)%N -> digits_onto f d tail = String (digit_char d) tail.
Proof.
  intros Hd. destruct f as [| f]; cbn [digits_onto];
    rewrite N.mod_small by assumption; [done |].
  by destruct (N.ltb_spec d 10) as [_ | ?]; [| lia].
Qed.

(** [str(int(s)) == s] for a run of digits without a leading zero. *)
Lemma str_of_int_of_str c r :
  all_chars is_digit (String c r) = true ->
  c <> "0"%char ->
  exists n, int_of_str (String c r) = Ok (Z.of_N n) /\ str_of_N n = String c r.
Proof.
  intros Hall Hc0. pose proof Hall as Hc. cbn [all_chars] in Hc.
  apply andb_true_iff in Hc as [Hc Hr].
  destruct (scan_all_digits (String c r) 0 AtStart Hall ltac:(by left))
    as [n Hn].
  exists n. split.
  - unfold int_of_str.
    by rewrite (lstrip_digit c r Hc), (take_sign_digit c r Hc), Hn.
  - cbn [scan_digits] in Hn. rewrite Hc in Hn.
    assert (Hpos : (0 < digit_val c)%N).
    { apply is_digit_range in Hc. unfold digit_val.
      assert (code c <> 48%N); [| lia].
      intros H48. apply Hc0. rewrite <- (ascii_N_embedding c).
      unfold code in H48. by rewrite H48. }
    replace (10 * 0 + digit_val c)%N with (digit_val c) in Hn by lia.
    unfold str_of_N. rewrite (digits_onto_scan r _ n "" Hr Hpos Hn).
    rewrite append_empty_r, digits_onto_small by (by apply digit_val_lt).
    by rewrite (digit_char_val c Hc).
Qed.

(** X5: the round trip from the path side: on the default [IdMapper], an
    ASCII segment that [is_id] accepts and that has no leading zero (or is
    ["0"]) is the path of the object whose id it denotes.  (Beyond ASCII
    this fails: digits of another script are read by [int] and written
    back by [str] as ASCII digits.) *)
Theorem IdMapper_canonical_path_round_trip (s : string) (m : instance) :
  new IdMapper None None None None = Ok m ->
  (forall c, In c (list_ascii_of_string s) -> (N_of_ascii c < 128)%N) ->
  result_of (is_id (VStr s)) m = Ok (VBool true) ->
  s = "0" \/ (forall r, s <> String "0" r) ->
  result_of (let* i := get_id_from_path (VStr s) in
             get_path_from_object {[ "id" := i ]}) m
  = Ok (VStr s).
Proof.
  intros Hm Hascii. rewrite (IdMapper_is_id_isdigit m s Hm).
  rewrite (isdigit_ascii s Hascii). intros [= Hs] Hcanon.
  rewrite result_of_bind, get_id_from_path_frame.
  rewrite (IdMapper_get_id_from_path_int m _ Hm). cbn [py_int].
  assert (exists n, int_of_str s = Ok (Z.of_N n) /\ str_of_N n = s)
    as (n & Hn & Hstr).
  { destruct Hcanon as [-> | Hnz]; [by exists 0%N |].
    destruct s as [| c r]; [discriminate |].
    apply str_of_int_of_str; [exact Hs |].
    intros ->. by apply (Hnz r). }
  rewrite Hn, (IdMapper_get_path_from_object_str m _ Hm), lookup_singleton_eq.
  cbn [py_str]. destruct n; cbn [Z.of_N str_of_Z Z.to_N] in *; by subst.
Qed.

Lemma IdMapper_canonical_path_round_trip_witness :
  exists m,
    new IdMapper None None None None = Ok m /\
    result_of (let* i := get_id_from_path (VStr "2015") in
               get_path_from_object {[ "id" := i ]}) m
    = Ok (VStr "2015").
Proof.
  exists (MkInstance IdMapper ∅). split; [reflexivity |].
  apply (IdMapper_canonical_path_round_trip "2015" (MkInstance IdMapper ∅));
    [reflexivity | | reflexivity | right; discriminate].
  intros c [<- | [<- | [<- | [<- | []]]]]; reflexivity.
Defined.

(** ** Further properties of the constructor *)

(** X6: callables handed to the constructor are stored on the instance, so
    they are called unbound, with the one argument of the operation: in
    both variants [get_id_from_path] is the supplied [transform_to_id],
    [is_id] is the supplied [is_id], and [get_path_from_object] is the
    supplied [transform_to_path] applied to the mapped attribute. *)
Theorem constructor_callables_unbound
    (c : class) (ma : option pyobj) (f g h : value -> result value)
    (m : instance) :
  is_variant c = true ->
  new c ma (Some (Callable f)) (Some (Callable g)) (Some (Callable h)) = Ok m ->
  (forall path, result_of (get_id_from_path path) m = g path) /\
  (forall x, result_of (is_id x) m = h x) /\
  (forall (obj : domobj) a v,
     instance_getattr m "mapping_attribute" = Ok (Plain (Data (VStr a))) ->
     obj !! a = Some v ->
     result_of (get_path_from_object obj) m = f v).
Proof.
  intros Hc Hm.
  pose proof (new_class c _ _ _ _ m Hc Hm) as Hcls.
  pose proof (fun s => new_getattr c _ _ _ _ m s Hc Hm) as H.
  pose proof (H TransformToPath) as Hp. pose proof (H TransformToId) as Hi.
  pose proof (H IsId) as Hd.
  change (instance_getattr m "transform_to_path" = Ok (Plain (Callable f))) in Hp.
  change (instance_getattr m "transform_to_id" = Ok (Plain (Callable g))) in Hi.
  change (instance_getattr m "is_id" = Ok (Plain (Callable h))) in Hd.
  split; [| split].
  - intros path.
    by rewrite (get_id_from_path_variant m path _ ltac:(by rewrite Hcls) Hi).
  - intros x. by rewrite (is_id_call m x _ Hd).
  - intros obj a v Ha Hv.
    rewrite (get_path_from_object_variant m obj _ _ ltac:(by rewrite Hcls) Hp Ha).
    cbn [py_getattr]. by rewrite Hv.
Qed.

Lemma constructor_callables_unbound_witness :
  exists m,
    new Base64UUIDMapper None (Some (Callable (fun v => Ok v)))
        (Some (Callable (fun v => Ok v)))
        (Some (Callable (fun _ => Ok (VBool true)))) = Ok m /\
    result_of (is_id (VStr "")) m = Ok (VBool true) /\
    result_of (get_id_from_path (VStr "a")) m = Ok (VStr "a").
Proof.
  eexists. split; [reflexivity |].
  destruct (constructor_callables_unbound Base64UUIDMapper None
              (fun v => Ok v) (fun v => Ok v) (fun _ => Ok (VBool true))
              _ eq_refl eq_refl) as (Hg & Hh & _).
  split; [exact (Hh (VStr "")) | exact (Hg (VStr "a"))].
Defined.

(** X7: the constructor validates nothing: a truthy [mapping_attribute] that
    is not a string is accepted, and then every [get_path_from_object]
    raises [TypeError], whatever the object and the transform. *)
Theorem non_string_mapping_attribute
    (c : class) (o : pyobj) (tp ti ii : option pyobj) (m : instance)
    (obj : domobj) :
  is_variant c = true ->
  truthy o = true ->
  (forall s, o <> Data (VStr s)) ->
  new c (Some o) tp ti ii = Ok m ->
  result_of (get_path_from_object obj) m = Raise TypeError.
Proof.
  intros Hc Ho Hns Hm.
  pose proof (new_class c _ _ _ _ m Hc Hm) as Hcls.
  pose proof (new_getattr c _ _ _ _ m MappingAttribute Hc Hm) as Ha.
  cbn in Ha. rewrite Ho in Ha.
  pose proof (new_getattr c _ _ _ _ m TransformToPath Hc Hm) as Hp.
  assert (exists f, instance_getattr m "transform_to_path" = Ok f) as [f Hf].
  { cbn [slot_name passed] in Hp. rewrite Hp. cbn zeta.
    destruct (truthy (or_none tp)); [by eexists |].
    destruct (class_default_exists c TransformToPath Hc) as [a Hl].
    cbn [slot_name] in Hl. rewrite Hl. by eexists. }
  rewrite (get_path_from_object_variant m obj f _ ltac:(by rewrite Hcls) Hf Ha).
  destruct o as [[] | | |]; try reflexivity. by destruct (Hns s).
Qed.

Lemma non_string_mapping_attribute_witness :
  exists m,
    new IdMapper (Some (Data (VInt 5))) None None None = Ok m /\
    result_of (get_path_from_object {[ "id" := VInt 1 ]}) m = Raise TypeError.
Proof.
  eexists. split; [reflexivity |].
  apply (non_string_mapping_attribute IdMapper (Data (VInt 5)) None None None);
    [reflexivity | reflexivity | discriminate | reflexivity].
Defined.

(** X8: the instance dictionary of a fresh mapper holds nothing but truthy
    constructor arguments, each under the name of its own slot. *)
Theorem constructor_stores_only_overrides
    (c : class) (ma tp ti ii : option pyobj) (m : instance)
    (name : string) (o : pyobj) :
  is_variant c = true ->
  new c ma tp ti ii = Ok m ->
  inst_dict m !! name = Some o ->
  exists s : slot,
    name = slot_name s /\ passed s ma tp ti ii = Some o /\ truthy o = true.
Proof.
  intros Hc. rewrite new_variant_eq by assumption. intros [= <-].
  unfold after, IdMapper_init, bind, store_if_truthy, store_attr, ret.
  assert (Hsome : forall a : option pyobj,
            truthy (or_none a) = true -> a = Some (or_none a)).
  { intros [a |]; [done | discriminate]. }
  destruct (truthy (or_none ma)) eqn:Ema, (truthy (or_none tp)) eqn:Etp,
           (truthy (or_none ti)) eqn:Eti, (truthy (or_none ii)) eqn:Eii;
    cbn; intros Hl;
    repeat (apply lookup_insert_Some in Hl as [[<- <-] | [_ Hl]]);
    try (by rewrite lookup_empty in Hl);
    first [ exists MappingAttribute; by auto
          | exists TransformToPath; by auto
          | exists TransformToId; by auto
          | exists IsId; by auto ].
Qed.

Lemma constructor_stores_only_overrides_witness :
  exists m s,
    new IdMapper (Some (Data (VStr "slug"))) None None (Some (Data VNone)) = Ok m /\
    "mapping_attribute" = slot_name s.
Proof.
  eexists.
  destruct (constructor_stores_only_overrides IdMapper
              (Some (Data (VStr "slug"))) None None (Some (Data VNone))
              _ "mapping_attribute" (Data (VStr "slug"))
              eq_refl eq_refl eq_refl) as (s & Hs & _).
  exists s. split; [reflexivity | exact Hs].
Defined.

(** X9: the four slots are configured independently: how a slot resolves on a
    fresh mapper depends on the class and on the argument passed for that
    slot only. *)
Theorem constructor_slots_independent
    (c : class) (ma tp ti ii ma' tp' ti' ii' : option pyobj)
    (m m' : instance) (s : slot) :
  is_variant c = true ->
  new c ma tp ti ii = Ok m ->
  new c ma' tp' ti' ii' = Ok m' ->
  passed s ma tp ti ii = passed s ma' tp' ti' ii' ->
  instance_getattr m (slot_name s) = instance_getattr m' (slot_name s).
Proof.
  intros Hc Hm Hm' Heq.
  rewrite (new_getattr c ma tp ti ii m s Hc Hm),
          (new_getattr c ma' tp' ti' ii' m' s Hc Hm').
  by rewrite Heq.
Qed.

Lemma constructor_slots_independent_witness :
  exists m m',
    new IdMapper None None None None = Ok m /\
    new IdMapper (Some (Data (VStr "slug"))) None None None = Ok m' /\
    instance_getattr m "is_id" = instance_getattr m' "is_id".
Proof.
  do 2 eexists. split; [reflexivity |]. split; [reflexivity |].
  exact (constructor_slots_independent IdMapper None None None None
           (Some (Data (VStr "slug"))) None None None _ _ IsId
           eq_refl eq_refl eq_refl eq_refl).
Defined.

(** ** The abstract base *)

(** X10: both variants implement the whole interface: on a default-constructed
    [IdMapper] or [Base64UUIDMapper] no operation ends in the
    [NotImplementedError] of the abstract [Mapper], on whose instances
    both translations always end in it. *)
Theorem variants_implement_interface
    (c : class) (m : instance) (o : operation) (obj : domobj) (path : value) :
  is_variant c = true ->
  new c None None None None = Ok m ->
  result_of (run o) m <> Raise NotImplementedError /\
  result_of (get_path_from_object obj) (MkInstance Mapper ∅)
  = Raise NotImplementedError /\
  result_of (get_id_from_path path) (MkInstance Mapper ∅)
  = Raise NotImplementedError.
Proof.
  intros Hc Hm. split; [| by split].
  destruct c; [discriminate | |].
  - destruct (IdMapper_default_config m Hm) as (_ & _ & _ & _ & Hi).
    destruct o as [obj' | path' | x]; cbn [run].
    + rewrite (IdMapper_get_path_from_object_str m obj' Hm).
      by destruct (obj' !! "id").
    + rewrite (IdMapper_get_id_from_path_int m path' Hm).
      destruct path' as [| b | z | s | u]; try done. cbn [py_int].
      by destruct (int_of_str_outcome s) as [[z ->] | ->].
    + rewrite (is_id_call m x _ Hi). by destruct x.
  - destruct (Base64UUIDMapper_default_config m Hm) as (Hcls & Ha & Hp & Ht & Hi).
    destruct o as [obj' | path' | x]; cbn [run].
    + rewrite (get_path_from_object_variant m obj' _ _ ltac:(by rewrite Hcls) Hp Ha).
      cbn [py_getattr]. by destruct (obj' !! "uuid").
    + by rewrite (get_id_from_path_variant m path' _ ltac:(by rewrite Hcls) Ht).
    + by rewrite (is_id_call m x _ Hi).
Qed.

Lemma variants_implement_interface_witness :
  exists m,
    new IdMapper None None None None = Ok m /\
    result_of (run (GetIdFromPath (VStr "abc"))) m <> Raise NotImplementedError.
Proof.
  eexists. split; [reflexivity |].
  exact (proj1 (variants_implement_interface IdMapper _
                  (GetIdFromPath (VStr "abc")) ∅ VNone eq_refl eq_refl)).
Defined.

(** ** Users and groups *)

Lemma prefix_append p s : String.prefix p (String.append p s) = true.
Proof.
  induction p as [| c p IH]; [by destruct s |].
  change (String.prefix (String c p) (String c (String.append p s)) = true).
  cbn [String.prefix]. destruct (ascii_dec c c); [exact IH | congruence].
Qed.

Lemma append_inj_l p s t : String.append p s = String.append p t -> s = t.
Proof.
  induction p as [| c p IH]; [done |].
  change (String c (String.append p s) = String c (String.append p t) -> s = t).
  intros [= H]. auto.
Qed.

Lemma str_of_Z_inj a b : str_of_Z a = str_of_Z b -> a = b.
Proof.
  intros H. pose proof (int_of_str_of_Z a) as Ha.
  rewrite H, int_of_str_of_Z in Ha. congruence.
Qed.

(** X11: a user without a full name whose username is the generated one is
    presented by the email: [friendly_name] never shows what
    [generate_username] made. *)
Theorem friendly_name_hides_generated_username (u : user) (name : string) :
  value_truthy (user_full_name u) = false ->
  generate_username u = Returned name ->
  user_username u = Some name ->
  friendly_name u = user_email u.
Proof.
  intros Hfull Hgen Hname. unfold friendly_name. rewrite Hfull, Hname.
  unfold generate_username in Hgen.
  destruct (user_id u) as [z |]; [| discriminate].
  destruct (negb (z =? 0)%Z); [| discriminate].
  injection Hgen as <-. by rewrite prefix_append.
Qed.

Lemma friendly_name_hides_generated_username_witness :
  friendly_name (MkUser 0 (Some 7%Z) (VStr "a@example.com") (Some "user-7")
                   VNone (VBool true) (VBool true))
  = VStr "a@example.com".
Proof.
  exact (friendly_name_hides_generated_username
           (MkUser 0 (Some 7%Z) (VStr "a@example.com") (Some "user-7")
              VNone (VBool true) (VBool true))
           "user-7" eq_refl eq_refl eq_refl).
Defined.

(** X12: [friendly_name] returns a name of the automatic form ["user-..."] only
    when that string is the full name or the email: never because it is
    the username. *)
Theorem friendly_name_never_automatic (u : user) (s : string) :
  friendly_name u = VStr s ->
  String.prefix "user-" s = true ->
  user_full_name u = VStr s \/ user_email u = VStr s.
Proof.
  unfold friendly_name. intros H Hp.
  destruct (value_truthy (user_full_name u)); [by left |].
  destruct (user_username u) as [name |]; [| by right].
  destruct (negb (String.eqb name "")); [| by right].
  destruct (String.prefix "user-" name) eqn:Hn; [by right |].
  injection H as ->. congruence.
Qed.

Lemma friendly_name_never_automatic_witness :
  user_full_name (MkUser 0 None VNone (Some "user-x") (VStr "user-9") VNone VNone)
    = VStr "user-9" \/
  user_email (MkUser 0 None VNone (Some "user-x") (VStr "user-9") VNone VNone)
    = VStr "user-9".
Proof.
  exact (friendly_name_never_automatic
           (MkUser 0 None VNone (Some "user-x") (VStr "user-9") VNone VNone)
           "user-9" eq_refl eq_refl).
Defined.

(** X13: generated usernames are unique per id: two users for which
    [generate_username] returns the same name have the same id. *)
Theorem generate_username_injective (u1 u2 : user) (name : string) :
  generate_username u1 = Returned name ->
  generate_username u2 = Returned name ->
  user_id u1 = user_id u2.
Proof.
  unfold generate_username. intros H1 H2.
  destruct (user_id u1) as [a |]; [| discriminate].
  destruct (user_id u2) as [b |]; [| discriminate].
  destruct (negb (a =? 0)%Z); [| discriminate].
  destruct (negb (b =? 0)%Z); [| discriminate].
  injection H1 as <-. injection H2 as H2.
  apply append_inj_l, str_of_Z_inj in H2. by subst.
Qed.

Lemma generate_username_injective_witness :
  user_id (MkUser 1 (Some 12%Z) VNone None VNone VNone VNone)
  = user_id (MkUser 2 (Some 12%Z) (VStr "b") None VNone VNone VNone).
Proof.
  exact (generate_username_injective
           (MkUser 1 (Some 12%Z) VNone None VNone VNone VNone)
           (MkUser 2 (Some 12%Z) (VStr "b") None VNone VNone VNone)
           "user-12" eq_refl eq_refl).
Defined.


(** X15: [is_in_group] finds a name exactly when one of the groups bears it. *)
Theorem is_in_group_spec (groups : list group) (name : string) :
  is_in_group groups name = true <->
  exists g, g ∈ groups /\ group_name g = name.
Proof.
  induction groups as [| g rest IH]; cbn [is_in_group].
  - split; [discriminate |]. intros (g & Hg & _). by apply elem_of_nil in Hg.
  - destruct (String.eqb_spec (group_name g) name) as [Heq | Hne].
    + split; [| done]. intros _. exists g. split; [left | done].
    + rewrite IH. split.
      * intros (g' & Hin & Hg'). exists g'. split; [by right | done].
      * intros (g' & Hin & Hg'). apply elem_of_cons in Hin as [-> | Hin];
          [done | by exists g'].
Qed.

(** X16: on a site without groups [init_empty_site] creates the admin group
    with the user as its only member, which makes the user an admin. *)
Theorem init_empty_site_makes_admin (db : dbsession) (u : user) :
  session_groups db = [] ->
  session_groups (init_empty_site db u) = [MkGroup GROUP_ADMIN [user_key u]] /\
  is_admin (user_groups (init_empty_site db u) u) = true.
Proof.
  intros Hempty. unfold init_empty_site. rewrite Hempty. cbn.
  split; [reflexivity |]. unfold user_groups. cbn.
  rewrite decide_True by (apply list_elem_of_singleton; reflexivity).
  reflexivity.
Qed.

Lemma init_empty_site_makes_admin_witness :
  is_admin (user_groups
              (init_empty_site (MkSession [])
                 (MkUser 3 (Some 1%Z) VNone None VNone VNone VNone))
              (MkUser 3 (Some 1%Z) VNone None VNone VNone VNone)) = true.
Proof.
  exact (proj2 (init_empty_site_makes_admin (MkSession [])
                  (MkUser 3 (Some 1%Z) VNone None VNone VNone VNone) eq_refl)).
Defined.

Lemma init_empty_site_twice (db : dbsession) (u u' : user) :
  init_empty_site (init_empty_site db u) u' = init_empty_site db u.
Proof.
  unfold init_empty_site.
  destruct (0 <? length (session_groups db))%nat eqn:Hc.
  - by rewrite Hc.
  - cbn [session_groups]. rewrite length_app. cbn [length].
    destruct (Nat.ltb_spec 0 (length (session_groups db) + 1));
      [reflexivity | lia].
Qed.

(** X17: [init_empty_site] acts once: after it has run, running it again, for
    any user, changes nothing. *)
Theorem init_empty_site_idempotent (db : dbsession) (u u' : user) :
  init_empty_site (init_empty_site db u) u' = init_empty_site db u.
Proof. apply init_empty_site_twice. Qed.

(** X18: only the first user is made admin: on a site without groups, a second
    user passed to [init_empty_site] after the first is not an admin. *)
Theorem init_empty_site_second_user_not_admin (db : dbsession) (u u' : user) :
  session_groups db = [] ->
  user_key u' <> user_key u ->
  is_admin (user_groups (init_empty_site (init_empty_site db u) u') u') = false.
Proof.
  intros Hempty Hne. rewrite init_empty_site_twice.
  unfold init_empty_site. rewrite Hempty. cbn. unfold user_groups. cbn.
  rewrite decide_False; [reflexivity |].
  intros Hin. apply list_elem_of_singleton in Hin. contradiction.
Qed.

Lemma init_empty_site_second_user_not_admin_witness :
  is_admin (user_groups
              (init_empty_site
                 (init_empty_site (MkSession [])
                    (MkUser 1 (Some 1%Z) VNone None VNone VNone VNone))
                 (MkUser 2 (Some 2%Z) VNone None VNone VNone VNone))
              (MkUser 2 (Some 2%Z) VNone None VNone VNone VNone)) = false.
Proof.
  apply init_empty_site_second_user_not_admin; [reflexivity | discriminate].
Defined.

(** X19: for a user that has an id, [check_empty_site_init] is
    [init_empty_site]: its own count of the groups adds nothing.  For a
    user without one (not flushed yet, or id 0) the assertion fails, also
    when the site already has groups. *)
Theorem check_empty_site_init_spec (db : dbsession) (u : user) :
  (forall z, user_id u = Some z -> z <> 0%Z ->
     check_empty_site_init db u = Returned (init_empty_site db u)) /\
  (user_id u = None \/ user_id u = Some 0%Z ->
     check_empty_site_init db u = AssertionError).
Proof.
  unfold check_empty_site_init. split.
  - intros z -> Hz. apply Z.eqb_neq in Hz. rewrite Hz. cbn [negb].
    unfold init_empty_site.
    by destruct (0 <? length (session_groups db))%nat.
  - by intros [-> | ->].
Qed.

Lemma check_empty_site_init_spec_witness :
  check_empty_site_init (MkSession [])
    (MkUser 1 (Some 5%Z) VNone None VNone VNone VNone)
  = Returned (MkSession [MkGroup "admin" [1]]) /\
  check_empty_site_init (MkSession [MkGroup "staff" []])
    (MkUser 1 None VNone None VNone VNone VNone)
  = AssertionError.
Proof.
  split.
  - exact (proj1 (check_empty_site_init_spec (MkSession [])
                    (MkUser 1 (Some 5%Z) VNone None VNone VNone VNone))
                 5%Z eq_refl ltac:(discriminate)).
  - exact (proj2 (check_empty_site_init_spec (MkSession [MkGroup "staff" []])
                    (MkUser 1 None VNone None VNone VNone VNone))
                 (or_introl eq_refl)).
Defined.

(** X20: whatever sign-ups happen on a site that started empty, there is at
    most one group, it is the admin group, and it has exactly one member:
    no sequence of calls makes a second admin. *)
Theorem reachable_single_admin (db : dbsession) :
  reachable db ->
  session_groups db = [] \/
  exists k, session_groups db = [MkGroup GROUP_ADMIN [k]].
Proof.
  induction 1 as [| db u db' Hreach IH Hstep]; [by left |].
  unfold check_empty_site_init in Hstep.
  destruct (user_id u) as [z |]; [| discriminate].
  destruct (negb (z =? 0)%Z); [| discriminate].
  destruct IH as [Hempty | [k Hk]].
  - rewrite Hempty in Hstep. cbn in Hstep. injection Hstep as <-.
    right. exists (user_key u). unfold init_empty_site. by rewrite Hempty.
  - rewrite Hk in Hstep. cbn in Hstep. injection Hstep as <-.
    right. by exists k.
Qed.

Lemma reachable_single_admin_witness :
  session_groups (MkSession [MkGroup "admin" [1]]) = [] \/
  exists k, session_groups (MkSession [MkGroup "admin" [1]])
            = [MkGroup GROUP_ADMIN [k]].
Proof.
  apply reachable_single_admin.
  apply (reachable_signup (MkSession [])
           (MkUser 1 (Some 5%Z) VNone None VNone VNone VNone));
    [apply reachable_empty | reflexivity].
Defined.
